(** * The agent runner: a shallow embedding of [claude-agent-runner.mjs]

    The script drives an external coding agent through a fixed, ordered task
    list, observes the agent's tool calls through lifecycle hooks, reports
    progress to a webhook with an HMAC-SHA256 signature, runs the build and
    finally commits and pushes the result.

    The embedding keeps the control flow of the script: every [await], every
    [try]/[catch] and every array mutation is a step of a state-and-exception
    monad.  The outside world (the agent's message stream, the outcome of
    each child process, the clock, URL parsing) is an oracle record [Env], so
    that every statement below is about all behaviours of the outside world.
    Console logging, the task status table that is only printed, and the
    reads of the file system that only feed the log are left out: they have
    no effect on the arrays, on what is sent or run, or on control flow.

    JavaScript strings are modelled as sequences of 8-bit code units (the
    Latin-1 range of UTF-16). *)

From Stdlib Require Import ZArith NArith List String Ascii Bool Lia Arith.
From Stdlib Require DecimalString.
Import ListNotations.

Open Scope list_scope.
Open Scope string_scope.

(* ------------------------------------------------------------------ *)
(** ** String primitives of the host language *)

Module Js.

Definition chr (n : nat) : ascii := ascii_of_nat n.
Definition code (c : ascii) : nat := nat_of_ascii c.

(** One-character strings that cannot be typed inside a literal. *)
Definition dq : string := String (chr 34) "".
Definition nl : string := String (chr 10) "".
Definition backslash : string := String (chr 92) "".
Definition backtick : string := String (chr 96) "".

(** [WhiteSpace] and [LineTerminator] code units below 256: TAB, LF, VT, FF,
    CR, SP and NBSP.  This is the set [String.prototype.trim] strips. *)
Definition isWhite (c : ascii) : bool :=
  match code c with
  | 9 | 10 | 11 | 12 | 13 | 32 | 160 => true
  | _ => false
  end.

(** Code units the regular-expression atom [.] refuses (no [s] flag). *)
Definition isLineTerminator (c : ascii) : bool :=
  match code c with
  | 10 | 13 => true
  | _ => false
  end.

Definition isEmpty (s : string) : bool :=
  match s with
  | EmptyString => true
  | String _ _ => false
  end.

Fixpoint trimStart (s : string) : string :=
  match s with
  | EmptyString => EmptyString
  | String c s' => if isWhite c then trimStart s' else s
  end.

Fixpoint trimEnd (s : string) : string :=
  match s with
  | EmptyString => EmptyString
  | String c s' =>
      let t := trimEnd s' in
      if isWhite c && isEmpty t then EmptyString else String c t
  end.

Definition trim (s : string) : string := trimEnd (trimStart s).

(** [hay.includes(needle)]. *)
Fixpoint includes (needle hay : string) : bool :=
  prefix needle hay ||
  match hay with
  | EmptyString => false
  | String _ hay' => includes needle hay'
  end.

(** [s.substring(0, n)]. *)
Definition substring0 (n : nat) (s : string) : string := substring 0 n s.

(** [parts.join(sep)]. *)
Fixpoint join (sep : string) (parts : list string) : string :=
  match parts with
  | [] => ""
  | [p] => p
  | p :: ps => p ++ sep ++ join sep ps
  end.

(** [s.split(ch)] for a one-character separator; never returns the empty
    list, as in JavaScript. *)
Fixpoint splitChar (ch : ascii) (s : string) : list string :=
  match s with
  | EmptyString => [""]
  | String c s' =>
      if Ascii.eqb c ch then "" :: splitChar ch s'
      else match splitChar ch s' with
           | p :: ps => String c p :: ps
           | [] => [String c ""]
           end
  end.

Definition splitLines (s : string) : list string := splitChar (chr 10) s.

(** [s.replace(/c/g, by)] for a one-character pattern [c]. *)
Fixpoint replaceChar (c : ascii) (by_ : string) (s : string) : string :=
  match s with
  | EmptyString => EmptyString
  | String d s' => (if Ascii.eqb d c then by_ else String d "") ++ replaceChar c by_ s'
  end.

(** Decimal rendering of a non-negative integer, as string concatenation
    with a number does. *)
Definition decimal (n : nat) : string := DecimalString.NilZero.string_of_uint (Nat.to_uint n).

(** Truthiness of a value that is a string, [undefined] or [null]:
    [None] stands for [undefined]/[null]. *)
Definition truthy (v : option string) : bool :=
  match v with
  | Some s => negb (isEmpty s)
  | None => false
  end.

(** [a || b] on such values. *)
Definition or_ (a b : option string) : option string :=
  if truthy a then a else b.

(** [a || d] with a string default. *)
Definition orDefault (a : option string) (d : string) : string :=
  match a with
  | Some s => if isEmpty s then d else s
  | None => d
  end.

End Js.

(* ------------------------------------------------------------------ *)
(** ** [node:crypto]: SHA-256 (FIPS 180-4) and HMAC (RFC 2104)

    [createHmac('sha256', key).update(text).digest('hex')] is modelled by
    [Crypto.hmacSha256Hex].  Words are 32-bit integers carried in [Z] with
    the wrap-around written out. *)

Module Crypto.

Local Open Scope Z_scope.
Local Open Scope list_scope.

Definition w32 (x : Z) : Z := Z.land x 0xFFFFFFFF.
Definition add32 (x y : Z) : Z := w32 (x + y).
Definition rotr (n x : Z) : Z :=
  w32 (Z.lor (Z.shiftr x n) (Z.shiftl x (32 - n))).
Definition Ch (x y z : Z) : Z :=
  Z.lxor (Z.land x y) (Z.land (Z.lxor x 0xFFFFFFFF) z).
Definition Maj (x y z : Z) : Z :=
  Z.lxor (Z.lxor (Z.land x y) (Z.land x z)) (Z.land y z).
Definition bigSigma0 (x : Z) : Z :=
  Z.lxor (Z.lxor (rotr 2 x) (rotr 13 x)) (rotr 22 x).
Definition bigSigma1 (x : Z) : Z :=
  Z.lxor (Z.lxor (rotr 6 x) (rotr 11 x)) (rotr 25 x).
Definition smallSigma0 (x : Z) : Z :=
  Z.lxor (Z.lxor (rotr 7 x) (rotr 18 x)) (Z.shiftr x 3).
Definition smallSigma1 (x : Z) : Z :=
  Z.lxor (Z.lxor (rotr 17 x) (rotr 19 x)) (Z.shiftr x 10).

(** The round constants are the first 32 bits of the fractional parts of
    the cube roots of the first 64 primes, the initial hash value those of
    the square roots of the first 8 primes; they are computed here. *)
Definition isPrime (n : nat) : bool :=
  Nat.ltb 1 n && forallb (fun d => negb (Nat.eqb (n mod d) 0)) (seq 2 (n - 2)).

Definition firstPrimes (count : nat) : list Z :=
  map Z.of_nat (firstn count (filter isPrime (seq 2 400))).

(** The integer cube root of [n], found one bit at a time below [2^bits]. *)
Fixpoint cubeRoot (bits : nat) (n r : Z) : Z :=
  match bits with
  | O => r
  | S b =>
      let c := r + 2 ^ Z.of_nat b in
      cubeRoot b n (if c * c * c <=? n then c else r)
  end.

Definition fractionOfCubeRoot (p : Z) : Z := w32 (cubeRoot 36 (p * 2 ^ 96) 0).

Definition fractionOfSquareRoot (p : Z) : Z := w32 (Z.sqrt (p * 2 ^ 64)).

Definition K : list Z := Eval vm_compute in map fractionOfCubeRoot (firstPrimes 64).

(** The [w] low bytes of [x], most significant first. *)
Fixpoint bigEndian (w : nat) (x : Z) : list Z :=
  match w with
  | O => []
  | S w' => Z.land (Z.shiftr x (8 * Z.of_nat w')) 0xFF :: bigEndian w' x
  end.

Definition pad (msg : list Z) : list Z :=
  let len := Z.of_nat (List.length msg) in
  msg ++ [0x80] ++ repeat 0 (Z.to_nat ((55 - len) mod 64)) ++ bigEndian 8 (8 * len).

Fixpoint words (fuel : nat) (bs : list Z) : list Z :=
  match fuel, bs with
  | S f, b0 :: b1 :: b2 :: b3 :: rest =>
      (Z.shiftl b0 24 + Z.shiftl b1 16 + Z.shiftl b2 8 + b3) :: words f rest
  | _, _ => []
  end.

(** Message schedule; the accumulator holds W(t-1) .. W(0), newest first. *)
Fixpoint extend (n : nat) (newestFirst : list Z) : list Z :=
  match n with
  | O => newestFirst
  | S n' =>
      let w2 := nth 1 newestFirst 0 in
      let w7 := nth 6 newestFirst 0 in
      let w15 := nth 14 newestFirst 0 in
      let w16 := nth 15 newestFirst 0 in
      extend n' (add32 (add32 (smallSigma1 w2) w7) (add32 (smallSigma0 w15) w16)
                 :: newestFirst)
  end.

Definition schedule (block : list Z) : list Z := List.rev (extend 48 (List.rev block)).

Record regs : Type := Regs
  { ra : Z; rb : Z; rc : Z; rd : Z; re : Z; rf : Z; rg : Z; rh : Z }.

Definition round (r : regs) (kw : Z * Z) : regs :=
  let '(k, w) := kw in
  let t1 := add32 (add32 (add32 (rh r) (bigSigma1 (re r)))
                         (add32 (Ch (re r) (rf r) (rg r)) k)) w in
  let t2 := add32 (bigSigma0 (ra r)) (Maj (ra r) (rb r) (rc r)) in
  Regs (add32 t1 t2) (ra r) (rb r) (rc r) (add32 (rd r) t1) (re r) (rf r) (rg r).

Definition compress (h : regs) (block : list Z) : regs :=
  let r := fold_left round (combine K (schedule block)) h in
  Regs (add32 (ra h) (ra r)) (add32 (rb h) (rb r))
       (add32 (rc h) (rc r)) (add32 (rd h) (rd r))
       (add32 (re h) (re r)) (add32 (rf h) (rf r))
       (add32 (rg h) (rg r)) (add32 (rh h) (rh r)).

Fixpoint blocks (fuel : nat) (ws : list Z) (h : regs) : regs :=
  match fuel with
  | O => h
  | S f =>
      match ws with
      | [] => h
      | _ => blocks f (skipn 16 ws) (compress h (firstn 16 ws))
      end
  end.

Definition initialWords : list Z :=
  Eval vm_compute in map fractionOfSquareRoot (firstPrimes 8).

Definition initialHash : regs :=
  let w (i : nat) := nth i initialWords 0 in
  Regs (w 0%nat) (w 1%nat) (w 2%nat) (w 3%nat) (w 4%nat) (w 5%nat) (w 6%nat) (w 7%nat).

Definition sha256 (msg : list Z) : list Z :=
  let p := pad msg in
  let ws := words (List.length p) p in
  let r := blocks (List.length ws) ws initialHash in
  flat_map (bigEndian 4) [ra r; rb r; rc r; rd r; re r; rf r; rg r; rh r].

Definition blockSize : nat := 64.

Definition hmacSha256 (key msg : list Z) : list Z :=
  let k0 := if (blockSize <? List.length key)%nat then sha256 key else key in
  let k := k0 ++ repeat 0 (blockSize - List.length k0) in
  let ipad := map (Z.lxor 0x36) k in
  let opad := map (Z.lxor 0x5c) k in
  sha256 (opad ++ sha256 (ipad ++ msg)).

(** UTF-8 bytes of a string whose code units are below 256. *)
Definition utf8 (s : string) : list Z :=
  flat_map (fun c : ascii =>
              let n := Z.of_nat (Js.code c) in
              if n <? 128 then [n]
              else [Z.lor 0xC0 (Z.shiftr n 6); Z.lor 0x80 (Z.land n 0x3F)])
           (list_ascii_of_string s).

Definition hexDigit (n : Z) : ascii :=
  Js.chr (Z.to_nat (if n <? 10 then 48 + n else 87 + n)).

Definition hex (bs : list Z) : string :=
  string_of_list_ascii
    (flat_map (fun b => [hexDigit (Z.shiftr b 4); hexDigit (Z.land b 15)]) bs).

Definition hmacSha256Hex (key text : string) : string :=
  hex (hmacSha256 (utf8 key) (utf8 text)).

End Crypto.

(* ------------------------------------------------------------------ *)
(** ** [JSON.stringify] on the values the script serializes *)

Module Json.

#[warnings="-register-all"]
Inductive value : Type :=
| Undefined
| Null
| Str (s : string)
| Arr (items : list value)
| Obj (props : list (string * value)).

Definition hex4 (n : nat) : string :=
  "00" ++ String (Crypto.hexDigit (Z.of_nat (n / 16)))
            (String (Crypto.hexDigit (Z.of_nat (n mod 16))) "").

(** [QuoteJSONString], one code unit. *)
Definition escape (c : ascii) : string :=
  match Js.code c with
  | 8 => "\b"
  | 9 => "\t"
  | 10 => "\n"
  | 12 => "\f"
  | 13 => "\r"
  | 34 => Js.backslash ++ Js.dq
  | 92 => "\\"
  | n => if Nat.ltb n 32 then "\u" ++ hex4 n else String c ""
  end.

Fixpoint escapeAll (s : string) : string :=
  match s with
  | EmptyString => EmptyString
  | String c s' => escape c ++ escapeAll s'
  end.

Definition quote (s : string) : string := Js.dq ++ escapeAll s ++ Js.dq.

(** [JSON.stringify(v)]; [None] is the result [undefined].  A property whose
    value is [undefined] is left out, an [undefined] array item prints as
    [null], property order is insertion order. *)
Fixpoint stringify (v : value) : option string :=
  match v with
  | Undefined => None
  | Null => Some "null"
  | Str s => Some (quote s)
  | Arr items =>
      Some ("[" ++ Js.join ","
                     (map (fun x => match stringify x with
                                    | Some t => t
                                    | None => "null"
                                    end) items) ++ "]")
  | Obj props =>
      Some ("{" ++ Js.join ","
                     (flat_map (fun kv => match stringify (snd kv) with
                                          | Some t => [quote (fst kv) ++ ":" ++ t]
                                          | None => []
                                          end) props) ++ "}")
  end.

Definition isUndefined (v : value) : bool :=
  match v with
  | Undefined => true
  | _ => false
  end.

(** What the receiver holds after [JSON.parse] of the transmitted text:
    the same value with the [undefined] properties gone. *)
Fixpoint received (v : value) : value :=
  match v with
  | Arr items =>
      Arr (map (fun x => if isUndefined x then Null else received x) items)
  | Obj props =>
      Obj (flat_map (fun kv => if isUndefined (snd kv) then []
                               else [(fst kv, received (snd kv))]) props)
  | _ => v
  end.

Definition getProp (k : string) (v : value) : value :=
  match v with
  | Obj props =>
      match find (fun kv => String.eqb (fst kv) k) props with
      | Some kv => snd kv
      | None => Undefined
      end
  | _ => Undefined
  end.

(** [delete v[k]]. *)
Definition deleteProp (k : string) (v : value) : value :=
  match v with
  | Obj props => Obj (filter (fun kv => negb (String.eqb (fst kv) k)) props)
  | _ => v
  end.

Definition ofOption (o : option string) : value :=
  match o with
  | Some s => Str s
  | None => Undefined
  end.

Definition ofStrings (l : list string) : value := Arr (map Str l).

End Json.

(* ------------------------------------------------------------------ *)
(** ** Regular expressions used by the script

    Backtracking matchers in continuation-passing style: each combinator
    takes the rest of the pattern as [k] and tries its alternatives in the
    order a backtracking engine does (greedy: the longer repetition first). *)

Module Regex.

Definition cont : Type := string -> option string.

(** The atom [.] *)
Definition dot (c : ascii) : bool := negb (Js.isLineTerminator c).

(** The literal character [s] *)
Definition letterS (c : ascii) : bool := Ascii.eqb c "s"%char.

(** [X{n}] *)
Fixpoint exactly (cls : ascii -> bool) (n : nat) (s : string) (k : cont) : option string :=
  match n with
  | O => k s
  | S n' =>
      match s with
      | String c s' => if cls c then exactly cls n' s' k else None
      | EmptyString => None
      end
  end.

(** [X{0,n}], greedy *)
Fixpoint upTo (cls : ascii -> bool) (n : nat) (s : string) (k : cont) : option string :=
  match n with
  | O => k s
  | S n' =>
      match s with
      | String c s' =>
          if cls c
          then match upTo cls n' s' k with
               | Some r => Some r
               | None => k s
               end
          else k s
      | EmptyString => k s
      end
  end.

(** [X+], greedy *)
Fixpoint plus (cls : ascii -> bool) (s : string) (k : cont) : option string :=
  match s with
  | EmptyString => None
  | String c s' =>
      if cls c
      then match plus cls s' k with
           | Some r => Some r
           | None => k s'
           end
      else None
  end.

(** [(.+)$]: the group starts here and must run to the end of the input;
    its text is the result. *)
Definition groupToEnd : cont :=
  fun s2 => plus dot s2 (fun s3 => if Js.isEmpty s3 then Some s2 else None).

(** [/^.{1,2}s+(.+)$/]: the text of capture group 1, or [None] when the
    pattern does not match. *)
Definition statusPrefix (s : string) : option string :=
  exactly dot 1 s (fun s0 =>
  upTo dot 1 s0 (fun s1 =>
  plus letterS s1 groupToEnd)).

(** [s.split(/s+/)]: the pieces between maximal runs of the letter [s].
    [inRun] tells that the previous character belonged to a separator. *)
Fixpoint splitRuns (inRun : bool) (s : string) : list string :=
  match s with
  | EmptyString => [""]
  | String c s' =>
      if letterS c
      then if inRun then splitRuns true s' else "" :: splitRuns true s'
      else match splitRuns false s' with
           | p :: ps => String c p :: ps
           | [] => [String c ""]
           end
  end.

Definition splitOnS (s : string) : list string := splitRuns false s.

End Regex.

(** The mapping applied to every line of [git status --porcelain] when the
    commit message is composed. *)
Definition extractFilename (line : string) : string :=
  let trimmed := Js.trim line in
  match Regex.statusPrefix trimmed with
  | Some g =>
      if negb (Js.isEmpty g) then Js.trim g
      else
        let parts := Regex.splitOnS trimmed in
        if Nat.ltb 1 (List.length parts) then Js.trim (Js.join " " (tl parts)) else trimmed
  | None =>
      let parts := Regex.splitOnS trimmed in
      if Nat.ltb 1 (List.length parts) then Js.trim (Js.join " " (tl parts)) else trimmed
  end.

(* ------------------------------------------------------------------ *)
(** ** Data of the script *)

Record Task : Type := mkTask { id : string; description : string }.

(** The values read from the environment at start-up and the embedded task
    list.  An absent variable is the empty string: the script only ever
    tests these values for truthiness. *)
Record Config : Type := mkConfig
  { apiKey : string;
    webhookUrl : string;
    webhookSecret : string;
    projectId : string;
    tasks : list Task;
    githubUrl : string;
    githubToken : string }.

(** Thrown values. *)
Module Err.

Record t : Type := make
  { message : string;
    stack : string;
    status : option string;
    statusCode : option string;
    type : option string;
    cause : option string;
    stdout : option string;
    stderr : option string }.

(** [new Error(msg)]; of the stack only its first line is kept. *)
Definition new (msg : string) : t :=
  make msg ("Error: " ++ msg) None None None None None None.

End Err.

(** Messages of the agent's stream; only the fields the script reads. *)
Module Msg.

Record errorInfo : Type := makeError
  { message : option string;
    status : option string;
    statusCode : option string;
    errorType : option string;
    cause : option string }.

Record t : Type := make
  { type : string;
    subtype : option string;
    result : option string;
    error : option errorInfo }.

End Msg.

(** The two property names under which [Write]/[Edit] have carried the
    path. *)
Record ToolInput : Type := mkToolInput
  { file_path : option string; filePath : option string }.

Inductive HookEvent : Type :=
| SessionStart
| SessionEnd
| PreToolUse (tool_name : string) (tool_input : ToolInput)
| PostToolUse (tool_name : string) (tool_input : ToolInput).

Record HookOutput : Type := mkHookOutput
  { continue : bool; permissionDecision : option string }.

(** What closing the iterator does when the consumer leaves the loop early:
    hooks may still fire, and [return()] may reject. *)
Record Closing : Type := mkClosing
  { closeHooks : list HookEvent; closeFault : option Err.t }.

(** One step of the agent as the script sees it: either the agent calls a
    hook while the loop awaits the next message, or the iterator yields a
    message. *)
Inductive StreamEvent : Type :=
| Hook (h : HookEvent)
| Yield (m : Msg.t) (onClose : Closing).

Inductive Ending : Type :=
| Done
| Fault (e : Err.t).

Record Stream : Type := mkStream
  { events : list StreamEvent; ending : Ending }.

(** Outcome of a child process.  A child that could not be started, or that
    a signal ended, is an outcome with a non-zero code. *)
Record ExecResult : Type := mkExecResult
  { exitCode : nat; stdout : string; stderr : string }.

(** The outside world.  The n-th call of each kind is answered by the
    oracle at index n, so an oracle can describe any behaviour, including
    one that depends on everything that happened before. *)
Record Env : Type := mkEnv
  { query : nat -> string -> Stream;
    shell : nat -> string -> ExecResult;
    now : nat -> string;
    parseURL : string -> option (string * string) }.

(** The webhook payload and the request handed to [fetch]. *)
Module Payload.

Record t : Type := make
  { projectId : string;
    status : string;
    currentTask : string;
    completedTasks : list string;
    filesChanged : list string;
    buildStatus : option string;
    error : option string;
    timestamp : string }.

Definition toJson (p : t) : Json.value :=
  Json.Obj
    [ ("projectId", Json.Str (projectId p));
      ("status", Json.Str (status p));
      ("currentTask", Json.Str (currentTask p));
      ("completedTasks", Json.ofStrings (completedTasks p));
      ("filesChanged", Json.ofStrings (filesChanged p));
      ("buildStatus", Json.ofOption (buildStatus p));
      ("error", Json.ofOption (error p));
      ("timestamp", Json.Str (timestamp p)) ].

End Payload.

(** [{...payload, signature}] *)
Definition envelope (p : Payload.t) (signature : string) : Json.value :=
  match Payload.toJson p with
  | Json.Obj props => Json.Obj (props ++ [("signature", Json.Str signature)])%list
  | v => v
  end.

(** The text [JSON.stringify] gives for an object. *)
Definition serialize (v : Json.value) : string :=
  match Json.stringify v with
  | Some t => t
  | None => ""
  end.

Record Request : Type := mkRequest
  { url : string;
    payload : Payload.t;
    signature : string;
    body : string }.

(** What the script does, one entry for each effect: a request handed to
    [fetch], a call of [query], a command run, a hook called by the agent,
    a push on [filesChanged], a push on [completedTaskIds]. *)
Inductive Effect : Type :=
| Sent (r : Request)
| Queried (prompt : string)
| Ran (cmd : string)
| Hooked (h : HookEvent)
| Recorded (path : string)
| Completed (taskId : string).

(** The arrays [main] creates and the hooks share, and the trace of what
    passed between the script and the outside world: the requests handed to
    [fetch], the prompts given to the agent, the commands run, and the hook
    calls the agent made; [effects] holds all of these and the pushes on
    the two arrays in the order in which they happened. *)
Record State : Type := mkState
  { completedTaskIds : list string;
    filesChanged : list string;
    sent : list Request;
    agentCalls : list string;
    shellCalls : list string;
    hookCalls : list HookEvent;
    effects : list Effect }.

Definition initialState : State := mkState [] [] [] [] [] [] [].

Inductive Completion (A : Type) : Type :=
| Return (a : A)
| Throw (e : Err.t).

Arguments Return {A} a.
Arguments Throw {A} e.

(** Computations of the script. *)
Definition M (A : Type) : Type := State -> Completion A * State.

Definition ret {A : Type} (a : A) : M A := fun st => (Return a, st).

Definition throw {A : Type} (e : Err.t) : M A := fun st => (Throw e, st).

Definition bind {A B : Type} (m : M A) (k : A -> M B) : M B :=
  fun st =>
    match m st with
    | (Return a, st') => k a st'
    | (Throw e, st') => (Throw e, st')
    end.

(** [try { body } catch (e) { handler e }] *)
Definition tryCatch {A : Type} (body : M A) (handler : Err.t -> M A) : M A :=
  fun st =>
    match body st with
    | (Return a, st') => (Return a, st')
    | (Throw e, st') => handler e st'
    end.

Definition gets {A : Type} (f : State -> A) : M A := fun st => (Return (f st), st).

Definition modify (f : State -> State) : M unit := fun st => (Return tt, f st).

Declare Scope script_scope.
Delimit Scope script_scope with script.

Notation "x <- m ;; k" := (bind m (fun x => k))
  (at level 61, m at next level, right associativity) : script_scope.
Notation "m ;; k" := (bind m (fun _ => k))
  (at level 61, right associativity) : script_scope.

Open Scope script_scope.

Fixpoint forEach {A : Type} (l : list A) (body : A -> M unit) : M unit :=
  match l with
  | [] => ret tt
  | x :: l' => body x ;; forEach l' body
  end.

Definition ignore {A : Type} (m : M A) : M unit := m ;; ret tt.

Definition withRequest (r : Request) (st : State) : State :=
  mkState (completedTaskIds st) (filesChanged st) (sent st ++ [r])%list
          (agentCalls st) (shellCalls st) (hookCalls st) (effects st ++ [Sent r])%list.

Definition withAgentCall (prompt : string) (st : State) : State :=
  mkState (completedTaskIds st) (filesChanged st) (sent st)
          (agentCalls st ++ [prompt])%list (shellCalls st) (hookCalls st)
          (effects st ++ [Queried prompt])%list.

Definition withShellCall (cmd : string) (st : State) : State :=
  mkState (completedTaskIds st) (filesChanged st) (sent st)
          (agentCalls st) (shellCalls st ++ [cmd])%list (hookCalls st)
          (effects st ++ [Ran cmd])%list.

Definition withHookCall (h : HookEvent) (st : State) : State :=
  mkState (completedTaskIds st) (filesChanged st) (sent st)
          (agentCalls st) (shellCalls st) (hookCalls st ++ [h])%list
          (effects st ++ [Hooked h])%list.

Definition withFile (p : string) (st : State) : State :=
  mkState (completedTaskIds st) (filesChanged st ++ [p])%list (sent st)
          (agentCalls st) (shellCalls st) (hookCalls st)
          (effects st ++ [Recorded p])%list.

Definition withCompleted (taskId : string) (st : State) : State :=
  mkState (completedTaskIds st ++ [taskId])%list (filesChanged st) (sent st)
          (agentCalls st) (shellCalls st) (hookCalls st)
          (effects st ++ [Completed taskId])%list.

Definition pushFile (p : string) : M unit := modify (withFile p).

Definition pushCompleted (taskId : string) : M unit := modify (withCompleted taskId).

(** [array.includes(x)] *)
Definition arrayIncludes (l : list string) (x : string) : bool :=
  existsb (String.eqb x) l.

Definition isWriteOrEdit (tool_name : string) : bool :=
  String.eqb tool_name "Write" || String.eqb tool_name "Edit".

(* ------------------------------------------------------------------ *)
(** ** The script *)

Section Script.

Variable cfg : Config.
Variable env : Env.

(** The synchronous part of [sendProgressUpdate]: build the payload, sign
    its serialization, serialize the payload again with the signature
    added. *)
Definition signedRequest (timestamp status currentTask : string)
    (completedTasks filesChanged : list string)
    (buildStatus error : option string) : Request :=
  let payload :=
    Payload.make (projectId cfg) status currentTask completedTasks filesChanged
                 buildStatus error timestamp in
  let signature :=
    Crypto.hmacSha256Hex (webhookSecret cfg) (serialize (Payload.toJson payload)) in
  mkRequest (webhookUrl cfg) payload signature (serialize (envelope payload signature)).

(** [sendProgressUpdate]: the payload is serialized and signed at the call,
    so the arrays it was given are read at that moment; the request is
    handed to [fetch] and never awaited, and nothing it does can reach the
    caller. *)
Definition sendProgressUpdate (status currentTask : string)
    (completedTasks filesChanged : list string)
    (buildStatus error : option string) : M unit :=
  fun st =>
    (Return tt,
     withRequest (signedRequest (now env (List.length (sent st))) status currentTask
                                completedTasks filesChanged buildStatus error) st).

(** [promisify(exec)(cmd)]: rejects when the child exits with a non-zero
    code. *)
Definition execAsync (cmd : string) : M ExecResult :=
  fun st =>
    let r := shell env (List.length (shellCalls st)) cmd in
    let st' := withShellCall cmd st in
    if Nat.eqb (exitCode r) 0 then (Return r, st')
    else (Throw (Err.make ("Command failed: " ++ cmd ++ Js.nl ++ stderr r)
                          ("Error: Command failed: " ++ cmd)
                          None None None None (Some (stdout r)) (Some (stderr r))),
          st').

(** *** Hooks *)

Definition onSessionStart : M HookOutput :=
  sendProgressUpdate "running" "Initializing Claude Agent SDK..." [] [] None None ;;
  ret (mkHookOutput true None).

Definition onSessionEnd : M HookOutput :=
  let allTaskIds := map id (tasks cfg) in
  files <- gets filesChanged ;;
  sendProgressUpdate "completed" "All tasks completed" allTaskIds files (Some "success") None ;;
  ret (mkHookOutput true None).

Definition onPreToolUse (tool_name : string) (tool_input : ToolInput) : M HookOutput :=
  (if isWriteOrEdit tool_name then
     let path := Js.or_ (file_path tool_input) (filePath tool_input) in
     files <- gets filesChanged ;;
     match path with
     | Some p =>
         if Js.truthy path && negb (arrayIncludes files p) then
           pushFile p ;;
           done <- gets completedTaskIds ;;
           files' <- gets filesChanged ;;
           sendProgressUpdate "running" "" done files' None None
         else ret tt
     | None => ret tt
     end
   else ret tt) ;;
  ret (mkHookOutput true (Some "approve")).

Definition onPostToolUse (tool_name : string) (tool_input : ToolInput) : M HookOutput :=
  (if isWriteOrEdit tool_name then
     let path := Js.or_ (file_path tool_input) (filePath tool_input) in
     files <- gets filesChanged ;;
     match path with
     | Some p =>
         if Js.truthy path && negb (arrayIncludes files p) then
           pushFile p ;;
           done <- gets completedTaskIds ;;
           files' <- gets filesChanged ;;
           sendProgressUpdate "running" "" done files' None None
         else ret tt
     | None => ret tt
     end
   else ret tt) ;;
  ret (mkHookOutput true None).

(** The agent calling the hook registered for an event. *)
Definition runHook (h : HookEvent) : M HookOutput :=
  modify (withHookCall h) ;;
  match h with
  | SessionStart => onSessionStart
  | SessionEnd => onSessionEnd
  | PreToolUse tool_name tool_input => onPreToolUse tool_name tool_input
  | PostToolUse tool_name tool_input => onPostToolUse tool_name tool_input
  end.

Definition runHooks (hs : list HookEvent) : M unit :=
  forEach hs (fun h => ignore (runHook h)).

(** *** One task *)

(** The prompt of a task.  In the template the placeholder is written
    with an escaped dollar sign, so nothing is substituted: the text is the
    same for every task and the description is not part of it. *)
Definition taskPrompt (task : Task) : string :=
  "Task: ${task.description}

You are implementing this task in a React + Vite + TypeScript project. 

IMPORTANT: You must actually create or modify code files to complete this task. Simply acknowledging the task is not sufficient.

To complete this task:
1. Read existing files to understand the codebase structure
2. Create new files or modify existing ones with actual implementation code
3. Ensure all code follows TypeScript and React best practices
4. Use the brand colors and fonts specified in CLAUDE.md
5. Test your implementation if needed

The task is only considered complete when you have created or modified actual code files (not just documentation or configuration).

Execute the necessary file operations and code changes to complete this task.".

(** The error raised for a message of type [error].  Its text is the
    template as written, the placeholder being escaped; the provider's
    status, type and cause are attached as properties. *)
Definition sdkError (m : Msg.t) : Err.t :=
  let info (f : Msg.errorInfo -> option string) : option string :=
    match Msg.error m with
    | Some e => f e
    | None => None
    end in
  let code := Js.or_ (info Msg.status) (info Msg.statusCode) in
  let keep (v : option string) := if Js.truthy v then v else None in
  Err.make "Agent SDK error: ${errorDetails.message}"
           "Error: Agent SDK error: ${errorDetails.message}"
           (keep code) (keep code) (keep (info Msg.errorType)) (keep (info Msg.cause))
           None None.

(** How the [for await] loop was left: the value of [finalResult] at that
    point and the exception that left it, if any. *)
Record LoopExit : Type := mkLoopExit
  { finalResult : option string; thrown : option Err.t }.

Definition isSuccess (m : Msg.t) : bool :=
  match Msg.subtype m with
  | Some s => String.eqb s "success"
  | None => false
  end.

(** The [for await (const message of queryResult)] loop.  Leaving the loop
    by [break] or by a [throw] in its body closes the iterator; a rejection
    of that closing surfaces only after a [break]. *)
Fixpoint forAwait (evs : list StreamEvent) (ending : Ending) : M LoopExit :=
  match evs with
  | [] =>
      match ending with
      | Done => ret (mkLoopExit None None)
      | Fault e => ret (mkLoopExit None (Some e))
      end
  | Hook h :: rest => runHook h ;; forAwait rest ending
  | Yield m onClose :: rest =>
      if String.eqb (Msg.type m) "result" then
        if isSuccess m then
          runHooks (closeHooks onClose) ;;
          ret (mkLoopExit (Msg.result m) (closeFault onClose))
        else
          runHooks (closeHooks onClose) ;;
          ret (mkLoopExit None
                 (Some (Err.new "Task execution failed: ${message.subtype}")))
      else if String.eqb (Msg.type m) "error" then
        runHooks (closeHooks onClose) ;;
        ret (mkLoopExit None (Some (sdkError m)))
      else forAwait rest ending
  end.

(** [query({prompt, options})] *)
Definition callQuery (prompt : string) : M Stream :=
  fun st =>
    (Return (query env (List.length (agentCalls st)) prompt), withAgentCall prompt st).

(** The body of the outer [try] of a task: drive the agent, reduce its
    stream; the value is [finalResult]. *)
Definition runQuery (task : Task) : M (option string) :=
  stream <- callQuery (taskPrompt task) ;;
  x <- forAwait (events stream) (ending stream) ;;
  match thrown x with
  | Some iteratorError =>
      if Js.truthy (finalResult x) then ret tt else throw iteratorError
  | None => ret tt
  end ;;
  if negb (Js.truthy (finalResult x))
  then throw (Err.new "No result received from agent")
  else ret (finalResult x).

(** The text reported for a failed task.  Every piece is a template whose
    placeholder is escaped, so the error decides which pieces are there,
    not what they say; [errorDetails.stack] is never empty. *)
Definition fullErrorMsg (error : Err.t) : string :=
  let code := Js.or_ (Err.status error) (Err.statusCode error) in
  "${errorDetails.message}"
  ++ (if Js.truthy code
      then Js.nl ++ "Anthropic Status Code: ${errorDetails.anthropicStatusCode}" else "")
  ++ (if Js.truthy (Err.type error)
      then Js.nl ++ "Anthropic Error Type: ${errorDetails.anthropicErrorType}" else "")
  ++ Js.nl ++ "Stack: ${errorDetails.stack}"
  ++ (if Js.truthy (Err.cause error)
      then Js.nl ++ "Cause: ${JSON.stringify(errorDetails.cause)}" else "").

(** The body of [for (const task of tasks)].  The report sent before the
    agent is called carries the description of the task; the two reports
    sent after it are templates with an escaped placeholder. *)
Definition processTask (task : Task) : M unit :=
  done <- gets completedTaskIds ;;
  files <- gets filesChanged ;;
  sendProgressUpdate "running" (description task) done files None None ;;
  tryCatch (ignore (runQuery task))
    (fun error =>
       done' <- gets completedTaskIds ;;
       files' <- gets filesChanged ;;
       sendProgressUpdate "error" "Task failed: ${task.description}" done' files'
                          None (Some (fullErrorMsg error)) ;;
       throw error) ;;
  pushCompleted (id task) ;;
  tryCatch (ignore (execAsync "git status --porcelain")) (fun _ => ret tt) ;;
  done'' <- gets completedTaskIds ;;
  files'' <- gets filesChanged ;;
  sendProgressUpdate "running" "Task completed: ${task.description}" done'' files''
                     None None.

Definition taskLoop : M unit := forEach (tasks cfg) processTask.

(** The check between the loop and the build. *)
Definition requireAllCompleted : M unit :=
  done <- gets completedTaskIds ;;
  if Nat.eqb (List.length done) (List.length (tasks cfg)) then ret tt
  else throw (Err.new ("Cannot build: Only ${completedTaskIds.length} of "
                       ++ "${tasks.length} tasks completed")).

(** *** Build *)

(** The test applied to the build's standard error after a zero exit. *)
Definition stderrIsError (text : string) : bool :=
  negb (Js.isEmpty text) && negb (Js.includes "warning" text)
  && negb (Js.includes "WARN" text).

(** *** Publication *)

Definition tempFiles : list string :=
  ["claude-agent-runner.mjs"; "read-stdout.mjs"; "read-stderr.mjs"; "verify.mjs"].

Definition gitignoreEntries : string :=
  Js.join "" (map (fun f => f ++ Js.nl) tempFiles).

Definition quoted (s : string) : string := Js.dq ++ s ++ Js.dq.

(** The chain of [replace] calls applied to the commit message.  As the
    patterns are written, the second and the fifth replace a text by
    itself, and the third matches the empty string at the end of the input
    once and puts a dollar sign there. *)
Definition escapeMessage (commitMessage : string) : string :=
  let s1 := Js.replaceChar (Js.chr 92) (Js.backslash ++ Js.backslash) commitMessage in
  let s2 := Js.replaceChar (Js.chr 34) Js.dq s1 in
  let s3 := s2 ++ "$" in
  let s4 := Js.replaceChar (Js.chr 96) (Js.backslash ++ Js.backtick) s3 in
  s4.

Definition composeCommitMessage (done : list string) (actualFilesChanged : nat)
    (actualFilesList : list string) : string :=
  let taskList := Js.join Js.nl (map (fun taskId => "- " ++ taskId) done) in
  let filesList :=
    if Nat.ltb 0 (List.length actualFilesList)
    then Js.nl ++ Js.nl ++ "Files in this commit:" ++ Js.nl
         ++ Js.join Js.nl (map (fun f => "- " ++ f) (firstn 50 actualFilesList))
         ++ (if Nat.ltb 50 (List.length actualFilesList)
             then Js.nl ++ "... and " ++ Js.decimal (List.length actualFilesList - 50)
                  ++ " more files"
             else "")
    else "" in
  "feat: Generated code by Claude Code Agent" ++ Js.nl ++ Js.nl
  ++ "Tasks completed: " ++ Js.decimal (List.length done) ++ Js.nl
  ++ "Files changed: " ++ Js.decimal actualFilesChanged ++ filesList ++ Js.nl ++ Js.nl
  ++ "Completed tasks:" ++ Js.nl ++ taskList.

Definition swallow (m : M unit) : M unit := tryCatch m (fun _ => ret tt).

(** The branch taken when [git status] reports changes. *)
Definition commitChanges : M unit :=
  forEach tempFiles (fun tempFile => swallow (ignore (execAsync ("rm -f " ++ tempFile)))) ;;
  tryCatch
    (gitignoreCheck <-
       execAsync ("grep -q " ++ quoted "claude-agent-runner.mjs"
                  ++ " .gitignore 2>/dev/null || echo " ++ quoted "missing") ;;
     if Js.includes "missing" (stdout gitignoreCheck)
     then ignore (execAsync ("echo " ++ quoted gitignoreEntries ++ " >> .gitignore"))
     else ret tt)
    (fun _ =>
       swallow (ignore (execAsync ("echo " ++ quoted gitignoreEntries ++ " > .gitignore")))) ;;
  forEach tempFiles
    (fun tempFile =>
       swallow (ignore (execAsync ("git rm --cached " ++ tempFile ++ " 2>/dev/null || true")))) ;;
  ignore (execAsync "git add -A") ;;
  swallow
    (stagedFiles <- execAsync "git diff --cached --name-only" ;;
     let filesList :=
       filter (fun f => negb (Js.isEmpty (Js.trim f))) (Js.splitLines (stdout stagedFiles)) in
     let tempFilesStaged :=
       filter (fun f => existsb (fun tf => Js.includes tf f) tempFiles) filesList in
     if Nat.ltb 0 (List.length tempFilesStaged)
     then forEach tempFilesStaged
            (fun file =>
               ignore (execAsync ("git reset HEAD " ++ quoted file ++ " 2>/dev/null || true")))
     else ret tt) ;;
  actual <-
    tryCatch
      (gitStatusAfterCleanup <- execAsync "git status --porcelain" ;;
       let statusLines :=
         filter (fun l => negb (Js.isEmpty (Js.trim l)))
                (Js.splitLines (stdout gitStatusAfterCleanup)) in
       ret (List.length statusLines,
            filter (fun f => negb (Js.isEmpty f) && negb (Js.includes Js.nl f))
                   (map extractFilename statusLines)))
      (fun _ => files <- gets filesChanged ;; ret (List.length files, files)) ;;
  done <- gets completedTaskIds ;;
  ignore (execAsync ("git commit -m "
                     ++ quoted (escapeMessage (composeCommitMessage done (fst actual) (snd actual))))) ;;
  swallow (ignore (execAsync "git log --oneline -1")).

Definition determineBranch : M string :=
  tryCatch
    (branchResult <- execAsync "git branch --show-current" ;;
     let branchName := Js.trim (stdout branchResult) in
     if negb (Js.isEmpty branchName) then ret branchName
     else execAsync "git checkout -b main" ;; ret "main")
    (fun _ =>
       tryCatch (execAsync "git checkout -b main" ;; ret "main") (fun _ => ret "main")).

Record PushOutcome : Type := mkPushOutcome
  { pushStdout : string; pushStderr : string; pushSucceeded : bool }.

Definition errorText (e : Err.t) : string :=
  Js.orDefault (Some (Err.message e)) "Error".

Definition pushWithFallback (currentBranch : string) : M PushOutcome :=
  tryCatch
    (pushResult <- execAsync ("git push -u origin " ++ currentBranch ++ " 2>&1") ;;
     ret (mkPushOutcome (stdout pushResult) (stderr pushResult) true))
    (fun pushError =>
       let out := Js.orDefault (Err.stdout pushError) "" in
       let err := Js.orDefault (Err.stderr pushError) (errorText pushError) in
       if negb (String.eqb currentBranch "main") then
         tryCatch
           (pushResult <- execAsync "git push -u origin main 2>&1" ;;
            ret (mkPushOutcome (stdout pushResult) (stderr pushResult) true))
           (fun mainError =>
              ret (mkPushOutcome
                     (Js.orDefault (Err.stdout mainError) out)
                     (Js.orDefault (Err.stderr mainError)
                                   (Js.orDefault (Some (Err.message mainError)) err))
                     false))
       else ret (mkPushOutcome out err false)).

(** The body of the [try] around the git commands. *)
Definition publishSteps : M unit :=
  tryCatch (ignore (execAsync "git rev-parse --git-dir"))
           (fun _ => ignore (execAsync "git init")) ;;
  execAsync ("git config user.name " ++ quoted "VibeStack Agent") ;;
  execAsync ("git config user.email " ++ quoted "hello@vibestack.codes") ;;
  remoteExists <-
    tryCatch (execAsync "git remote get-url origin" ;; ret true) (fun _ => ret false) ;;
  match parseURL env (githubUrl cfg) with
  | None =>
      throw (Err.make "Invalid URL" "TypeError: Invalid URL" None None None None None None)
  | Some (host, pathname) =>
      let remoteUrl := "https://" ++ githubToken cfg ++ "@" ++ host ++ pathname in
      (if remoteExists : bool
       then ignore (execAsync ("git remote set-url origin " ++ remoteUrl))
       else ignore (execAsync ("git remote add origin " ++ remoteUrl))) ;;
      gitStatus <- execAsync "git status --porcelain" ;;
      (if Js.isEmpty (stdout gitStatus) || Js.isEmpty (Js.trim (stdout gitStatus))
       then swallow (ignore (execAsync "git log --oneline -1"))
       else commitChanges) ;;
      currentBranch <- determineBranch ;;
      push <- pushWithFallback currentBranch ;;
      if pushSucceeded push then
        done <- gets completedTaskIds ;;
        files <- gets filesChanged ;;
        sendProgressUpdate "completed" "Code committed and pushed to GitHub" done files
                           (Some "success") None
      else
        throw (Err.new ("Git push failed. Stdout: " ++ Js.substring0 500 (pushStdout push)
                        ++ ", Stderr: " ++ Js.substring0 500 (pushStderr push)))
  end.

(** The [catch (gitError)] block. *)
Definition onGitError (gitError : Err.t) : M unit :=
  swallow (ignore (execAsync "git status --porcelain")) ;;
  swallow (ignore (execAsync "git log --oneline -1")) ;;
  done <- gets completedTaskIds ;;
  files <- gets filesChanged ;;
  sendProgressUpdate "completed" "Build successful (Git push failed)" done files
                     (Some "success") None.

Definition publish : M unit :=
  done <- gets completedTaskIds ;;
  files <- gets filesChanged ;;
  sendProgressUpdate "running" "Committing code to GitHub..." done files None None ;;
  tryCatch publishSteps onGitError.

(** The [try] that runs the build and, inside it, the publication; its
    [catch] reports the error and throws it again. *)
Definition buildAndPublish : M unit :=
  tryCatch
    (build <- execAsync "npm run build" ;;
     (if stderrIsError (stderr build)
      then throw (Err.new "Build failed: ${stderr}")
      else ret tt) ;;
     done <- gets completedTaskIds ;;
     sendProgressUpdate "completed" "Build successful" done [] (Some "success") None ;;
     if negb (Js.isEmpty (githubUrl cfg)) && negb (Js.isEmpty (githubToken cfg))
     then publish
     else ret tt)
    (fun buildError => throw buildError).

(** The notification that announces the build, then the build. *)
Definition buildStage : M unit :=
  done <- gets completedTaskIds ;;
  sendProgressUpdate "running" "Running build command..." done [] (Some "building") None ;;
  buildAndPublish.

(** [main].  Between the first report and the loop the script sets up the
    options of the agent and, when [.claude/CLAUDE.md] exists, reads that
    file to log its length; nothing of this reaches the arrays or the
    outside world.  The runs described here are those in which the file is
    absent or can be read. *)
Definition main : M unit :=
  sendProgressUpdate "running" "Starting task execution..." [] [] None None ;;
  taskLoop ;;
  requireAllCompleted ;;
  buildStage.

(** [main()] on the fresh arrays. *)
Definition run : Completion unit * State := main initialState.

(** [main().catch(... process.exit(1))] *)
Definition processExitCode : nat :=
  match fst run with
  | Return _ => 0
  | Throw _ => 1
  end.

(** The checks made while the module loads, before [main] is called. *)
Definition checkEnvironment : Completion unit :=
  if Js.isEmpty (apiKey cfg)
  then Throw (Err.new "ANTHROPIC_API_KEY environment variable is required")
  else if Js.isEmpty (webhookUrl cfg)
  then Throw (Err.new "WEBHOOK_URL environment variable is required")
  else if Js.isEmpty (webhookSecret cfg)
  then Throw (Err.new "WEBHOOK_SECRET environment variable is required")
  else if Js.isEmpty (projectId cfg)
  then Throw (Err.new "PROJECT_ID environment variable is required")
  else Return tt.

(** The whole module: the checks, then [main]. *)
Definition script : Completion unit * State :=
  match checkEnvironment with
  | Return _ => run
  | Throw e => (Throw e, initialState)
  end.

End Script.

Arguments Crypto.hmacSha256Hex : simpl never.
Arguments signedRequest : simpl never.
Arguments Js.decimal : simpl never.

(** ** The reducer without the state

    What the loop of [runQuery] computes from a stream alone: the hooks the
    agent fires change the arrays, never the way the loop is left. *)

Fixpoint loopExitOf (evs : list StreamEvent) (ending : Ending) : LoopExit :=
  match evs with
  | [] =>
      match ending with
      | Done => mkLoopExit None None
      | Fault e => mkLoopExit None (Some e)
      end
  | Hook _ :: rest => loopExitOf rest ending
  | Yield m onClose :: rest =>
      if String.eqb (Msg.type m) "result" then
        if isSuccess m then mkLoopExit (Msg.result m) (closeFault onClose)
        else mkLoopExit None (Some (Err.new "Task execution failed: ${message.subtype}"))
      else if String.eqb (Msg.type m) "error" then mkLoopExit None (Some (sdkError m))
      else loopExitOf rest ending
  end.

Definition outcomeOfExit (x : LoopExit) : Completion (option string) :=
  match thrown x with
  | Some iteratorError =>
      if Js.truthy (finalResult x) then Return (finalResult x) else Throw iteratorError
  | None =>
      if Js.truthy (finalResult x) then Return (finalResult x)
      else Throw (Err.new "No result received from agent")
  end.

(** The outcome of a task whose agent produces stream [s]. *)
Definition outcomeOf (s : Stream) : Completion (option string) :=
  outcomeOfExit (loopExitOf (events s) (ending s)).

Definition succeeds (s : Stream) : bool :=
  match outcomeOf s with
  | Return _ => true
  | Throw _ => false
  end.

(** The tasks [ts], invoked as calls number [n], [n+1], ... of the agent,
    all succeed. *)
Fixpoint allSucceed (env : Env) (n : nat) (ts : list Task) : bool :=
  match ts with
  | [] => true
  | t :: ts' => succeeds (query env n (taskPrompt t)) && allSucceed env (S n) ts'
  end.

(** ** Notions used in the statements *)

(** The receiver's check: recompute the HMAC over the received object
    without its [signature] property and compare. *)
Definition verify (secret : string) (receivedObject : Json.value) : bool :=
  match Json.getProp "signature" receivedObject with
  | Json.Str sig =>
      String.eqb sig
        (Crypto.hmacSha256Hex secret (serialize (Json.deleteProp "signature" receivedObject)))
  | _ => false
  end.

(** The path a [Write]/[Edit] hook event makes the hook look at: the value
    of [input.tool_input?.file_path || input.tool_input?.filePath]. *)
Definition observedPath (h : HookEvent) : option string :=
  match h with
  | PreToolUse tool_name tool_input | PostToolUse tool_name tool_input =>
      if isWriteOrEdit tool_name
      then Js.or_ (file_path tool_input) (filePath tool_input)
      else None
  | _ => None
  end.

Definition observes (p : string) (h : HookEvent) : bool :=
  match observedPath h with
  | Some q => String.eqb q p
  | None => false
  end.

(** The build step raises: the child exited with a non-zero code, or it
    exited with zero and its standard error is taken for an error. *)
Definition buildFails (r : ExecResult) : bool :=
  negb (Nat.eqb (exitCode r) 0) || stderrIsError (stderr r).

(** What the specification takes for a build failure. *)
Definition buildFailsAsSpecified (r : ExecResult) : bool :=
  negb (Nat.eqb (exitCode r) 0)
  && negb (Js.includes "warning" (stderr r)) && negb (Js.includes "WARN" (stderr r)).

(** Status letters of the short format of [git status]. *)
Definition statusLetter (c : ascii) : bool :=
  existsb (Ascii.eqb c) (list_ascii_of_string " MTADRCU?!").

(** A line [XY path] of [git status --porcelain]. *)
Definition porcelainLine (x y : ascii) (path : string) : string :=
  String x (String y (String " "%char path)).

(** A computation leaves a relation between the state before and after. *)
Definition stable {A : Type} (R : State -> State -> Prop) (m : M A) : Prop :=
  forall st, R st (snd (m st)).

(** The relation "the component [f] of the state is the same". *)
Definition same {B : Type} (f : State -> B) : State -> State -> Prop :=
  fun st st' => f st' = f st.

(** The relation "the property [I] of the state is kept". *)
Definition keeps (I : State -> Prop) : State -> State -> Prop :=
  fun st st' => I st -> I st'.

(** The relation "requests were only added to the log". *)
Definition sentGrows : State -> State -> Prop :=
  fun st st' => exists added, sent st' = (sent st ++ added)%list.

(** A computation that never throws. *)
Definition neverThrows {A : Type} (m : M A) : Prop :=
  forall st, exists a, fst (m st) = Return a.

(** A property of the state whenever the computation returns normally. *)
Definition ensures {A : Type} (Q : State -> Prop) (m : M A) : Prop :=
  forall st a st', m st = (Return a, st') -> Q st'.

(** The request sent last. *)
Definition lastSent (P : Request -> Prop) (st : State) : Prop :=
  exists earlier r, sent st = (earlier ++ [r])%list /\ P r.

Definition reportsSuccess (r : Request) : Prop :=
  Payload.status (payload r) = "completed"
  /\ Payload.buildStatus (payload r) = Some "success".

(** A request carries the signature of its own payload and passes the
    receiver's check. *)
Definition wellSigned (cfg : Config) (r : Request) : Prop :=
  signature r
  = Crypto.hmacSha256Hex (webhookSecret cfg) (serialize (Payload.toJson (payload r)))
  /\ body r = serialize (envelope (payload r) (signature r))
  /\ Json.getProp "signature" (Json.received (envelope (payload r) (signature r)))
     = Json.Str (signature r)
  /\ serialize (Json.deleteProp "signature"
                  (Json.received (envelope (payload r) (signature r))))
     = serialize (Payload.toJson (payload r))
  /\ verify (webhookSecret cfg) (Json.received (envelope (payload r) (signature r))) = true.

(** The request that announces the build. *)
Definition announcesBuild (done : list string) (r : Request) : Prop :=
  Payload.status (payload r) = "running"
  /\ Payload.currentTask (payload r) = "Running build command..."
  /\ Payload.buildStatus (payload r) = Some "building"
  /\ Payload.completedTasks (payload r) = done
  /\ Payload.filesChanged (payload r) = [].

(** The request that reports the build as passed. *)
Definition reportsBuild (done : list string) (r : Request) : Prop :=
  Payload.status (payload r) = "completed"
  /\ Payload.currentTask (payload r) = "Build successful"
  /\ Payload.buildStatus (payload r) = Some "success"
  /\ Payload.completedTasks (payload r) = done
  /\ Payload.filesChanged (payload r) = [].

(** A step of the stream that the loop passes over: a hook call, or a
    message that is neither a result nor an error. *)
Definition sideChannel (ev : StreamEvent) : bool :=
  match ev with
  | Hook _ => true
  | Yield m _ =>
      negb (String.eqb (Msg.type m) "result") && negb (String.eqb (Msg.type m) "error")
  end.


(** Every request in the log is well signed. *)
Definition allWellSigned (cfg : Config) (st : State) : Prop :=
  Forall (wellSigned cfg) (sent st).

(** The field of a tool input holds the path [p]. *)
Definition holds (p : string) (field : option string) : bool :=
  match field with
  | Some q => String.eqb q p
  | None => false
  end.

(** A hook observation of the path [p] as the specification has it: a
    [PreToolUse] or [PostToolUse] call for [Write] or [Edit] whose input
    holds [p] under [file_path] or under [filePath]. *)
Definition carries (p : string) (h : HookEvent) : bool :=
  match h with
  | PreToolUse tool_name tool_input | PostToolUse tool_name tool_input =>
      isWriteOrEdit tool_name
      && (holds p (file_path tool_input) || holds p (filePath tool_input))
  | _ => false
  end.

(** The narrower observation: the input holds [p] under [file_path], or it
    holds [p] under [filePath] and has no [file_path], or an empty one. *)
Definition names (p : string) (h : HookEvent) : bool :=
  match h with
  | PreToolUse tool_name tool_input | PostToolUse tool_name tool_input =>
      isWriteOrEdit tool_name
      && (holds p (file_path tool_input)
          || (negb (Js.truthy (file_path tool_input)) && holds p (filePath tool_input)))
  | _ => false
  end.

(** The steps of the sequencer among the effects: the calls of the agent
    and the pushes on [completedTaskIds], in the order in which they
    happened. *)
Definition sequencing (e : Effect) : bool :=
  match e with
  | Queried _ | Completed _ => true
  | _ => false
  end.

Definition sequence (st : State) : list Effect := filter sequencing (effects st).

(** What the sequencer does for tasks that all succeed: for each task in
    turn, the agent is called and then the id of the task is pushed. *)
Definition rounds (ts : list Task) : list Effect :=
  flat_map (fun t => [Queried (taskPrompt t); Completed (id t)]) ts.

(** Every path in the file list is non-empty and was observed by a hook
    call made so far. *)
Definition filesJustified (st : State) : Prop :=
  forall p, In p (filesChanged st) ->
            p <> "" /\ existsb (observes p) (hookCalls st) = true.

(** A message that ends the loop: a result or an error. *)
Definition decides (m : Msg.t) : bool :=
  String.eqb (Msg.type m) "result" || String.eqb (Msg.type m) "error".

(** A character the chain of replacements of the commit message changes: a
    backslash or a backtick. *)
Definition needsEscape (c : ascii) : bool :=
  Ascii.eqb c (Js.chr 92) || Ascii.eqb c (Js.chr 96).

Fixpoint allChars (f : ascii -> bool) (s : string) : bool :=
  match s with
  | EmptyString => true
  | String c s' => f c && allChars f s'
  end.

(** The command that pushes a branch. *)
Definition pushCommand (branch : string) : string :=
  "git push -u origin " ++ branch ++ " 2>&1".

(** A command that pushes. *)
Definition isPush (cmd : string) : bool := prefix "git push -u origin " cmd.

(** The two reports that can end the publication stage. *)
Definition saysPushed (r : Request) : Prop :=
  Payload.currentTask (payload r) = "Code committed and pushed to GitHub".

Definition saysPushFailed (r : Request) : Prop :=
  Payload.currentTask (payload r) = "Build successful (Git push failed)".

(** A command that stages or commits. *)
Definition stagesOrCommits (cmd : string) : bool :=
  String.eqb cmd "git add -A" || prefix "git commit " cmd.

(** No command run so far staged or committed anything. *)
Definition nothingCommitted (st : State) : Prop :=
  forallb (fun cmd => negb (stagesOrCommits cmd)) (shellCalls st) = true.

(** The last command run was a push, and it exited with code 0. *)
Definition lastCommandPushed (env : Env) (st : State) : Prop :=
  exists earlier cmd,
    shellCalls st = (earlier ++ [cmd])%list
    /\ isPush cmd = true
    /\ exitCode (shell env (List.length earlier) cmd) = 0.

(** The lines of the text reported for a failed task, as the receiver
    reads them: the thrown error decides which lines are there, through the
    presence of a status code, of a type and of a cause; what the lines say
    is fixed. *)
Definition failureLines (withCode withType withCause : bool) : list string :=
  (["${errorDetails.message}"]
   ++ (if withCode
       then ["Anthropic Status Code: ${errorDetails.anthropicStatusCode}"] else [])
   ++ (if withType
       then ["Anthropic Error Type: ${errorDetails.anthropicErrorType}"] else [])
   ++ ["Stack: ${errorDetails.stack}"]
   ++ (if withCause then ["Cause: ${JSON.stringify(errorDetails.cause)}"] else []))%list.

(** The report of a failed task: neither the description of the task nor
    the text of the error is in it. *)
Definition reportsTaskFailure (e : Err.t) (done : list string) (r : Request) : Prop :=
  Payload.status (payload r) = "error"
  /\ Payload.currentTask (payload r) = "Task failed: ${task.description}"
  /\ Payload.error (payload r)
     = Some (Js.join Js.nl
               (failureLines (Js.truthy (Err.status e) || Js.truthy (Err.statusCode e))
                             (Js.truthy (Err.type e)) (Js.truthy (Err.cause e))))
  /\ Payload.completedTasks (payload r) = done.

(** One of the four required settings is missing. *)
Definition environmentIncomplete (cfg : Config) : bool :=
  Js.isEmpty (apiKey cfg) || Js.isEmpty (webhookUrl cfg)
  || Js.isEmpty (webhookSecret cfg) || Js.isEmpty (projectId cfg).

(* ------------------------------------------------------------------ *)
(** ** Sample data *)

Module Sample.

Definition taskA : Task := mkTask "A" "first task".
Definition taskB : Task := mkTask "B" "second task".
Definition taskC : Task := mkTask "C" "third task".

Definition config : Config :=
  mkConfig "key" "https://controller.test/hook" "s3cr3t" "p1" [taskA; taskB; taskC] "" "".

Definition publishing : Config :=
  mkConfig "key" "https://controller.test/hook" "s3cr3t" "p1" [taskA]
           "https://github.com/acme/app" "token".

Definition quietClose : Closing := mkClosing [] None.

Definition cleanupNoise : Err.t := Err.new "Claude Code process exited with code 1".

Definition noisyClose : Closing := mkClosing [SessionEnd] (Some cleanupNoise).

Definition successMessage (text : string) : Msg.t :=
  Msg.make "result" (Some "success") (Some text) None.

Definition failureMessage : Msg.t :=
  Msg.make "result" (Some "error_max_turns") None None.

Definition assistantMessage : Msg.t := Msg.make "assistant" None None None.

Definition writeTo (p : string) : ToolInput := mkToolInput (Some p) None.

Definition editOf (p : string) : ToolInput := mkToolInput None (Some p).

Definition goodStream : Stream :=
  mkStream [Hook SessionStart;
            Yield assistantMessage quietClose;
            Hook (PreToolUse "Write" (writeTo "src/App.tsx"));
            Hook (PostToolUse "Write" (writeTo "src/App.tsx"));
            Hook (PreToolUse "Edit" (editOf "src/App.tsx"));
            Yield (successMessage "done") noisyClose]
           Done.

Definition badStream : Stream :=
  mkStream [Yield assistantMessage quietClose; Yield failureMessage quietClose] Done.

Definition emptySuccessStream : Stream :=
  mkStream [Yield (successMessage "") noisyClose] Done.

Definition ok : ExecResult := mkExecResult 0 "" "".

Definition clock (n : nat) : string := "2025-01-01T00:00:00.000Z".

Definition url (u : string) : option (string * string) := Some ("github.com", "/acme/app").

(** The agent succeeds on every task; every command succeeds silently. *)
Definition calm : Env := mkEnv (fun _ _ => goodStream) (fun _ _ => ok) clock url.

(** The second invocation of the agent fails. *)
Definition secondFails : Env :=
  mkEnv (fun n _ => if Nat.eqb n 1 then badStream else goodStream) (fun _ _ => ok) clock url.

(** The build exits with code 1 and only warnings on standard error. *)
Definition buildExits1 : Env :=
  mkEnv (fun _ _ => goodStream)
        (fun _ cmd => if String.eqb cmd "npm run build"
                      then mkExecResult 1 "" "npm WARN deprecated" else ok)
        clock url.

(** The build exits with code 0 and an error text on standard error. *)
Definition buildComplains : Env :=
  mkEnv (fun _ _ => goodStream)
        (fun _ cmd => if String.eqb cmd "npm run build"
                      then mkExecResult 0 "" "error TS2304: Cannot find name" else ok)
        clock url.

(** The agent reports success with an empty result text, and closing its
    stream then fails. *)
Definition emptyResult : Env := mkEnv (fun _ _ => emptySuccessStream) (fun _ _ => ok) clock url.

(** The same success, from a stream that closes quietly. *)
Definition emptyResultQuiet : Env :=
  mkEnv (fun _ _ => mkStream [Yield (successMessage "") quietClose] Done)
        (fun _ _ => ok) clock url.

(** A provider error as the stream reports it. *)
Definition overloaded : Msg.t :=
  Msg.make "error" None None
           (Some (Msg.makeError (Some "Overloaded") (Some "529") None
                                (Some "overloaded_error") None)).

(** A stream that ends without any result. *)
Definition silentStream : Stream :=
  mkStream [Hook SessionStart; Yield assistantMessage quietClose] Done.

(** A failed result whose stream also fails to close, followed by more. *)
Definition failsThenGoesOn : Stream :=
  mkStream [Yield assistantMessage quietClose;
            Yield failureMessage noisyClose;
            Hook (PreToolUse "Write" (writeTo "late.ts"));
            Yield (successMessage "late") quietClose]
           Done.

(** The work is on branch [feature]; pushing it fails, pushing [main]
    works. *)
Definition featureBranch : Env :=
  mkEnv (fun _ _ => goodStream)
        (fun _ cmd =>
           if String.eqb cmd "git branch --show-current" then mkExecResult 0 ("feature" ++ Js.nl) ""
           else if String.eqb cmd "git push -u origin feature 2>&1"
           then mkExecResult 1 "" "rejected"
           else ok)
        clock url.

(** A configuration without the webhook secret. *)
Definition incomplete : Config :=
  mkConfig "key" "https://controller.test/hook" "" "p1" [taskA] "" "".

(** Every git command fails; the build succeeds. *)
Definition gitBroken : Env :=
  mkEnv (fun _ _ => goodStream)
        (fun _ cmd => if String.eqb cmd "npm run build" then ok
                      else mkExecResult 128 "" "fatal: not a git repository")
        clock url.

End Sample.

(* ================================================================== *)
(** * Properties *)

(** ** Reasoning about computations *)

Lemma bind_Return {A B : Type} (m : M A) (k : A -> M B) st a st' :
  m st = (Return a, st') -> bind m k st = k a st'.
Proof. intros H. unfold bind. rewrite H. reflexivity. Qed.

Lemma bind_Throw {A B : Type} (m : M A) (k : A -> M B) st e st' :
  m st = (Throw e, st') -> bind m k st = (Throw e, st').
Proof. intros H. unfold bind. rewrite H. reflexivity. Qed.

Lemma tryCatch_Return {A : Type} (m : M A) (h : Err.t -> M A) st a st' :
  m st = (Return a, st') -> tryCatch m h st = (Return a, st').
Proof. intros H. unfold tryCatch. rewrite H. reflexivity. Qed.

Lemma tryCatch_Throw {A : Type} (m : M A) (h : Err.t -> M A) st e st' :
  m st = (Throw e, st') -> tryCatch m h st = h e st'.
Proof. intros H. unfold tryCatch. rewrite H. reflexivity. Qed.

Lemma bind_inv {A B : Type} (m : M A) (k : A -> M B) st b st'' :
  bind m k st = (Return b, st'') ->
  exists a st', m st = (Return a, st') /\ k a st' = (Return b, st'').
Proof.
  unfold bind. destruct (m st) as [[a | e] st'] eqn:E; intros H.
  - exists a, st'. split; [reflexivity | exact H].
  - discriminate H.
Qed.

Section Relations.

Context (R : State -> State -> Prop).
Hypothesis R_refl : forall st, R st st.
Hypothesis R_trans : forall a b c, R a b -> R b c -> R a c.

Lemma stable_ret {A : Type} (a : A) : stable R (ret a).
Proof. intro st. apply R_refl. Qed.

Lemma stable_throw {A : Type} (e : Err.t) : stable R (@throw A e).
Proof. intro st. apply R_refl. Qed.

Lemma stable_gets {A : Type} (f : State -> A) : stable R (gets f).
Proof. intro st. apply R_refl. Qed.

Lemma stable_bind {A B : Type} (m : M A) (k : A -> M B) :
  stable R m -> (forall a, stable R (k a)) -> stable R (bind m k).
Proof.
  intros Hm Hk st. unfold bind. specialize (Hm st).
  destruct (m st) as [[a | e] st']; simpl in *.
  - eapply R_trans; [exact Hm | apply Hk].
  - exact Hm.
Qed.

Lemma stable_tryCatch {A : Type} (m : M A) (h : Err.t -> M A) :
  stable R m -> (forall e, stable R (h e)) -> stable R (tryCatch m h).
Proof.
  intros Hm Hh st. unfold tryCatch. specialize (Hm st).
  destruct (m st) as [[a | e] st']; simpl in *.
  - exact Hm.
  - eapply R_trans; [exact Hm | apply Hh].
Qed.

Lemma stable_forEach {A : Type} (l : list A) (body : A -> M unit) :
  (forall x, stable R (body x)) -> stable R (forEach l body).
Proof.
  intros Hb. induction l as [| x l IH]; simpl.
  - apply stable_ret.
  - apply stable_bind; [apply Hb | intros _; exact IH].
Qed.

End Relations.

Lemma same_refl {B : Type} (f : State -> B) st : same f st st.
Proof. reflexivity. Qed.

Lemma same_trans {B : Type} (f : State -> B) a b c :
  same f a b -> same f b c -> same f a c.
Proof. unfold same. congruence. Qed.

Lemma keeps_refl (I : State -> Prop) st : keeps I st st.
Proof. intro H. exact H. Qed.

Lemma keeps_trans (I : State -> Prop) a b c :
  keeps I a b -> keeps I b c -> keeps I a c.
Proof. unfold keeps. auto. Qed.

(** Structural steps of a stability proof; [base] closes the primitives. *)
Ltac stable_step R_refl R_trans base :=
  lazymatch goal with
  | |- stable _ (bind _ _) => apply (stable_bind _ R_trans); [ | intros ? ]
  | |- stable _ (tryCatch _ _) => apply (stable_tryCatch _ R_trans); [ | intros ? ]
  | |- stable _ (forEach _ _) => apply (stable_forEach _ R_refl R_trans); intros ?
  | |- stable _ (ret _) => apply (stable_ret _ R_refl)
  | |- stable _ (throw _) => apply (stable_throw _ R_refl)
  | |- stable _ (gets _) => apply (stable_gets _ R_refl)
  | |- stable _ (ignore _) => unfold ignore
  | |- stable _ (swallow _) => unfold swallow
  | |- stable _ (if ?b then _ else _) => destruct b
  | |- stable _ (match ?x with _ => _ end) => destruct x
  | |- stable _ _ => base
  end.

Ltac stable_same f base :=
  repeat stable_step (same_refl f) (same_trans f) base.

(** *** What a hook leaves alone *)

Section HookFrames.

Variable cfg : Config.
Variable env : Env.
Variable R : State -> State -> Prop.
Hypothesis R_refl : forall st, R st st.
Hypothesis R_trans : forall a b c, R a b -> R b c -> R a c.
Hypothesis R_send : forall s c d f b e, stable R (sendProgressUpdate cfg env s c d f b e).
Hypothesis R_pushFile : forall p, stable R (pushFile p).
Hypothesis R_hookCall : forall h, stable R (modify (withHookCall h)).

Lemma runHook_stable h : stable R (runHook cfg env h).
Proof.
  unfold runHook. apply (stable_bind _ R_trans); [apply R_hookCall | intros _].
  destruct h; unfold onSessionStart, onSessionEnd, onPreToolUse, onPostToolUse;
    repeat stable_step R_refl R_trans ltac:(first [ apply R_send | apply R_pushFile ]).
Qed.

End HookFrames.

(** *** What the stages of the script leave alone

    Whatever relation the primitive steps respect, the composed stages
    respect: each lemma asks only for the primitives its stage uses. *)

Section Frames.

Variable cfg : Config.
Variable env : Env.
Variable R : State -> State -> Prop.
Hypothesis R_refl : forall st, R st st.
Hypothesis R_trans : forall a b c, R a b -> R b c -> R a c.
Hypothesis R_send : forall s c d f b e, stable R (sendProgressUpdate cfg env s c d f b e).
Hypothesis R_exec : forall cmd, stable R (execAsync env cmd).
Hypothesis R_query : forall prompt, stable R (callQuery env prompt).
Hypothesis R_hook : forall h, stable R (runHook cfg env h).
Hypothesis R_pushCompleted : forall t, stable R (pushCompleted t).

Ltac frame :=
  repeat stable_step R_refl R_trans
    ltac:(first [ apply R_send | apply R_exec | apply R_query
                | apply R_hook | apply R_pushCompleted | solve [ auto ] ]).

Lemma runHooks_stable hs : stable R (runHooks cfg env hs).
Proof. unfold runHooks. frame. Qed.

Lemma forAwait_stable evs ending : stable R (forAwait cfg env evs ending).
Proof.
  induction evs as [| ev evs IH]; simpl.
  - destruct ending; frame.
  - destruct ev as [h | m onClose].
    + frame.
    + pose proof (runHooks_stable (closeHooks onClose)). frame.
Qed.

Lemma runQuery_stable task : stable R (runQuery cfg env task).
Proof. unfold runQuery. frame. apply forAwait_stable. Qed.

Lemma processTask_stable task : stable R (processTask cfg env task).
Proof. unfold processTask. frame. apply runQuery_stable. Qed.

Lemma taskLoop_stable : stable R (taskLoop cfg env).
Proof. unfold taskLoop. frame. apply processTask_stable. Qed.

Lemma requireAllCompleted_stable : stable R (requireAllCompleted cfg).
Proof. unfold requireAllCompleted. frame. Qed.

Lemma commitChanges_stable : stable R (commitChanges env).
Proof. unfold commitChanges. frame. Qed.

Lemma determineBranch_stable : stable R (determineBranch env).
Proof. unfold determineBranch. frame. Qed.

Lemma pushWithFallback_stable branch : stable R (pushWithFallback env branch).
Proof. unfold pushWithFallback. frame. Qed.

Lemma publishSteps_stable : stable R (publishSteps cfg env).
Proof.
  pose proof commitChanges_stable. pose proof determineBranch_stable.
  pose proof pushWithFallback_stable.
  unfold publishSteps. frame.
Qed.

Lemma onGitError_stable e : stable R (onGitError cfg env e).
Proof. unfold onGitError. frame. Qed.

Lemma publish_stable : stable R (publish cfg env).
Proof.
  pose proof publishSteps_stable. pose proof onGitError_stable.
  unfold publish. frame.
Qed.

Lemma buildAndPublish_stable : stable R (buildAndPublish cfg env).
Proof. pose proof publish_stable. unfold buildAndPublish. frame. Qed.

Lemma buildStage_stable : stable R (buildStage cfg env).
Proof. pose proof buildAndPublish_stable. unfold buildStage. frame. Qed.

Lemma main_stable : stable R (main cfg env).
Proof.
  pose proof taskLoop_stable. pose proof requireAllCompleted_stable.
  pose proof buildStage_stable. unfold main. frame.
Qed.

End Frames.

(** *** Primitive steps *)

Lemma send_same {B : Type} (f : State -> B) cfg env s c d fs b e :
  (forall r st, f (withRequest r st) = f st) ->
  stable (same f) (sendProgressUpdate cfg env s c d fs b e).
Proof. intros H st. unfold same, sendProgressUpdate. simpl. apply H. Qed.

Lemma execAsync_state env cmd st :
  snd (execAsync env cmd st) = withShellCall cmd st.
Proof. unfold execAsync. destruct (Nat.eqb _ 0); reflexivity. Qed.

Lemma exec_same {B : Type} (f : State -> B) env cmd :
  (forall c st, f (withShellCall c st) = f st) ->
  stable (same f) (execAsync env cmd).
Proof. intros H st. unfold same. rewrite execAsync_state. apply H. Qed.

Lemma query_same {B : Type} (f : State -> B) env prompt :
  (forall q st, f (withAgentCall q st) = f st) ->
  stable (same f) (callQuery env prompt).
Proof. intros H st. unfold same, callQuery. simpl. apply H. Qed.

(** A hook leaves alone whatever neither a request, nor a recorded file,
    nor the record of the call itself touches. *)
Lemma runHook_same {B : Type} (f : State -> B) cfg env h :
  (forall r st, f (withRequest r st) = f st) ->
  (forall p st, f (withFile p st) = f st) ->
  (forall g st, f (withHookCall g st) = f st) ->
  stable (same f) (runHook cfg env h).
Proof.
  intros H1 H2 H3. apply runHook_stable.
  - exact (same_refl f).
  - exact (same_trans f).
  - intros. apply send_same. exact H1.
  - intros p st. unfold same, pushFile, modify. simpl. apply H2.
  - intros g st. unfold same, modify. simpl. apply H3.
Qed.

Lemma sentGrows_refl st : sentGrows st st.
Proof. exists []. symmetry. apply app_nil_r. Qed.

Lemma sentGrows_trans a b c : sentGrows a b -> sentGrows b c -> sentGrows a c.
Proof.
  intros [l1 H1] [l2 H2]. exists (l1 ++ l2)%list.
  rewrite H2, H1. symmetry. apply app_assoc.
Qed.

Lemma send_sentGrows cfg env s c d fs b e :
  stable sentGrows (sendProgressUpdate cfg env s c d fs b e).
Proof. intro st. unfold sendProgressUpdate. simpl. eexists. reflexivity. Qed.

Lemma exec_sentGrows env cmd : stable sentGrows (execAsync env cmd).
Proof.
  intro st. rewrite execAsync_state. exists []. simpl. symmetry. apply app_nil_r.
Qed.

(** Closes the side conditions of the frame lemmas for [same f]. *)
Ltac same_frames :=
  first [ exact (same_refl _)
        | exact (same_trans _)
        | intros; apply send_same; reflexivity
        | intros; apply exec_same; reflexivity
        | intros; apply query_same; reflexivity
        | intros; apply runHook_same; reflexivity
        | intros; intro; reflexivity ].

(** *** The steps of the sequencer among the effects *)

Lemma sequence_withRequest r st : sequence (withRequest r st) = sequence st.
Proof. unfold sequence. simpl. rewrite filter_app. simpl. apply app_nil_r. Qed.

Lemma sequence_withShellCall cmd st : sequence (withShellCall cmd st) = sequence st.
Proof. unfold sequence. simpl. rewrite filter_app. simpl. apply app_nil_r. Qed.

Lemma sequence_withHookCall h st : sequence (withHookCall h st) = sequence st.
Proof. unfold sequence. simpl. rewrite filter_app. simpl. apply app_nil_r. Qed.

Lemma sequence_withFile p st : sequence (withFile p st) = sequence st.
Proof. unfold sequence. simpl. rewrite filter_app. simpl. apply app_nil_r. Qed.

Lemma sequence_withAgentCall prompt st :
  sequence (withAgentCall prompt st) = (sequence st ++ [Queried prompt])%list.
Proof. unfold sequence. simpl. rewrite filter_app. reflexivity. Qed.

Lemma sequence_withCompleted taskId st :
  sequence (withCompleted taskId st) = (sequence st ++ [Completed taskId])%list.
Proof. unfold sequence. simpl. rewrite filter_app. reflexivity. Qed.

Lemma rounds_app ts us : rounds (ts ++ us) = (rounds ts ++ rounds us)%list.
Proof. unfold rounds. apply flat_map_app. Qed.

(** Closes the side conditions of the frame lemmas for [same sequence]. *)
Ltac sequence_frames :=
  first [ exact (same_refl _)
        | exact (same_trans _)
        | intros; apply send_same; apply sequence_withRequest
        | intros; apply exec_same; apply sequence_withShellCall
        | intros; apply runHook_same;
          [ apply sequence_withRequest | apply sequence_withFile
          | apply sequence_withHookCall ] ].

(** *** Computations that cannot throw, and what holds when one returns *)

Lemma neverThrows_ret {A : Type} (a : A) : neverThrows (ret a).
Proof. intro st. exists a. reflexivity. Qed.

Lemma neverThrows_gets {A : Type} (f : State -> A) : neverThrows (gets f).
Proof. intro st. exists (f st). reflexivity. Qed.

Lemma neverThrows_send cfg env s c d fs b e :
  neverThrows (sendProgressUpdate cfg env s c d fs b e).
Proof. intro st. exists tt. reflexivity. Qed.

Lemma neverThrows_bind {A B : Type} (m : M A) (k : A -> M B) :
  neverThrows m -> (forall a, neverThrows (k a)) -> neverThrows (bind m k).
Proof.
  intros Hm Hk st. destruct (Hm st) as [a Ha].
  destruct (m st) as [c st'] eqn:E. simpl in Ha. subst c.
  rewrite (bind_Return _ _ _ _ _ E). apply Hk.
Qed.

Lemma neverThrows_tryCatch {A : Type} (m : M A) (h : Err.t -> M A) :
  (forall e, neverThrows (h e)) -> neverThrows (tryCatch m h).
Proof.
  intros Hh st. unfold tryCatch. destruct (m st) as [[a | e] st'].
  - exists a. reflexivity.
  - apply Hh.
Qed.

Lemma neverThrows_swallow (m : M unit) : neverThrows (swallow m).
Proof. apply neverThrows_tryCatch. intros e. apply neverThrows_ret. Qed.

Lemma ensures_bind {A B : Type} (Q : State -> Prop) (m : M A) (k : A -> M B) :
  (forall a, ensures Q (k a)) -> ensures Q (bind m k).
Proof.
  intros Hk st b st'' H. apply bind_inv in H. destruct H as (a & st' & _ & H).
  exact (Hk a st' b st'' H).
Qed.

Lemma ensures_tryCatch {A : Type} (Q : State -> Prop) (m : M A) (h : Err.t -> M A) :
  ensures Q m -> (forall e, ensures Q (h e)) -> ensures Q (tryCatch m h).
Proof.
  intros Hm Hh st a st'' H. unfold tryCatch in H.
  destruct (m st) as [[a' | e] st'] eqn:E.
  - inversion H; subst. exact (Hm st a st'' E).
  - exact (Hh e st' a st'' H).
Qed.

Lemma ensures_throw {A : Type} (Q : State -> Prop) (e : Err.t) : ensures Q (@throw A e).
Proof. intros st a st' H. discriminate H. Qed.

Lemma ensures_send (P : Request -> Prop) cfg env s c d fs b e :
  (forall ts, P (signedRequest cfg ts s c d fs b e)) ->
  ensures (lastSent P) (sendProgressUpdate cfg env s c d fs b e).
Proof.
  intros HP st a st' H. unfold sendProgressUpdate in H. inversion H; subst.
  eexists _, _. split; [reflexivity | apply HP].
Qed.

Lemma signedRequest_reportsSuccess cfg ts c d fs :
  reportsSuccess (signedRequest cfg ts "completed" c d fs (Some "success") None).
Proof. split; reflexivity. Qed.

Section Publication.

Variable cfg : Config.
Variable env : Env.

Lemma onGitError_neverThrows e : neverThrows (onGitError cfg env e).
Proof.
  unfold onGitError.
  repeat first [ apply neverThrows_bind; [ | intros ? ]
               | apply neverThrows_swallow | apply neverThrows_gets
               | apply neverThrows_send ].
Qed.

(** Nothing that goes wrong among the git commands leaves [publish]. *)
Lemma publish_neverThrows : neverThrows (publish cfg env).
Proof.
  unfold publish.
  repeat first [ apply neverThrows_bind; [ | intros ? ]
               | apply neverThrows_gets | apply neverThrows_send ].
  apply neverThrows_tryCatch. apply onGitError_neverThrows.
Qed.

Lemma publishSteps_reports : ensures (lastSent reportsSuccess) (publishSteps cfg env).
Proof.
  unfold publishSteps.
  repeat (apply ensures_bind; intros ?).
  destruct (parseURL env (githubUrl cfg)) as [[host pathname] |].
  - repeat (apply ensures_bind; intros ?).
    destruct (pushSucceeded _).
    + repeat (apply ensures_bind; intros ?).
      apply ensures_send. intros ts. apply signedRequest_reportsSuccess.
    + apply ensures_throw.
  - apply ensures_throw.
Qed.

Lemma onGitError_reports e : ensures (lastSent reportsSuccess) (onGitError cfg env e).
Proof.
  unfold onGitError. repeat (apply ensures_bind; intros ?).
  apply ensures_send. intros ts. apply signedRequest_reportsSuccess.
Qed.

(** Whatever happened among the git commands, the last report of
    [publish] is [completed] with build status [success]. *)
Lemma publish_reports : ensures (lastSent reportsSuccess) (publish cfg env).
Proof.
  unfold publish. repeat (apply ensures_bind; intros ?).
  apply ensures_tryCatch; [apply publishSteps_reports | apply onGitError_reports].
Qed.

Lemma publish_returns st :
  exists st', publish cfg env st = (Return tt, st') /\ lastSent reportsSuccess st'.
Proof.
  destruct (publish_neverThrows st) as [[] H].
  destruct (publish cfg env st) as [c st'] eqn:E. simpl in H. subst c.
  exists st'. split; [reflexivity | exact (publish_reports _ _ _ E)].
Qed.

End Publication.

(** ** The build step *)

Section Build.

Variable cfg : Config.
Variable env : Env.

Lemma publish_sentGrows : stable sentGrows (publish cfg env).
Proof.
  apply publish_stable;
    first [ exact sentGrows_refl | exact sentGrows_trans
          | intros; apply send_sentGrows | intros; apply exec_sentGrows ].
Qed.

Lemma publish_same_shape st :
  completedTaskIds (snd (publish cfg env st)) = completedTaskIds st
  /\ agentCalls (snd (publish cfg env st)) = agentCalls st.
Proof.
  split.
  - apply (publish_stable cfg env (same completedTaskIds)); same_frames.
  - apply (publish_stable cfg env (same agentCalls)); same_frames.
Qed.

(** A failing build leaves [buildAndPublish] at once: the build command is
    the last command run and no request is sent. *)
Lemma buildAndPublish_fails st :
  buildFails (shell env (List.length (shellCalls st)) "npm run build") = true ->
  exists e, buildAndPublish cfg env st = (Throw e, withShellCall "npm run build" st).
Proof.
  unfold buildFails, buildAndPublish, tryCatch, bind, execAsync, throw.
  set (r := shell env (List.length (shellCalls st)) "npm run build").
  destruct (Nat.eqb (exitCode r) 0); simpl; intros H.
  - rewrite H. simpl. eexists. reflexivity.
  - eexists. reflexivity.
Qed.

(** After a passing build the step returns, whatever publication does. *)
Lemma buildAndPublish_passes st :
  buildFails (shell env (List.length (shellCalls st)) "npm run build") = false ->
  exists st' later,
    buildAndPublish cfg env st = (Return tt, st')
    /\ lastSent reportsSuccess st'
    /\ sent st' =
       (sent st
        ++ signedRequest cfg (now env (List.length (sent st))) "completed" "Build successful"
             (completedTaskIds st) [] (Some "success") None :: later)%list
    /\ completedTaskIds st' = completedTaskIds st
    /\ agentCalls st' = agentCalls st.
Proof.
  unfold buildFails, buildAndPublish, tryCatch, bind, execAsync, throw, gets,
    sendProgressUpdate, ret.
  set (r := shell env (List.length (shellCalls st)) "npm run build").
  destruct (Nat.eqb (exitCode r) 0); simpl; intros H; [ | discriminate H ].
  rewrite H. simpl.
  set (st1 := withRequest _ (withShellCall _ st)).
  destruct (negb (Js.isEmpty (githubUrl cfg)) && negb (Js.isEmpty (githubToken cfg))).
  - destruct (publish_returns cfg env st1) as (st' & E & HL).
    destruct (publish_sentGrows st1) as [added Hs].
    destruct (publish_same_shape st1) as [Hc Ha].
    rewrite E in *. simpl in *.
    exists st', added. repeat split; try assumption.
    rewrite Hs. subst st1. simpl. rewrite <- app_assoc. reflexivity.
  - exists st1, []. repeat split.
    eexists _, _. split; [reflexivity | apply signedRequest_reportsSuccess].
Qed.

End Build.

(** ** One task *)

Section OneTask.

Variable cfg : Config.
Variable env : Env.

Lemma runHook_neverThrows h : neverThrows (runHook cfg env h).
Proof.
  destruct h; unfold runHook, onSessionStart, onSessionEnd, onPreToolUse, onPostToolUse;
    repeat first [ apply neverThrows_bind; [ | intros ? ]
                 | apply neverThrows_gets | apply neverThrows_send | apply neverThrows_ret
                 | match goal with
                   | |- neverThrows (if ?b then _ else _) => destruct b
                   | |- neverThrows (match ?x with _ => _ end) => destruct x
                   end
                 | (intro st; eexists; reflexivity) ].
Qed.

Lemma runHooks_returns hs st : fst (runHooks cfg env hs st) = Return tt.
Proof.
  revert st. induction hs as [| h hs IH]; intros st; [reflexivity |].
  unfold runHooks in *. simpl. unfold ignore at 1.
  destruct (runHook_neverThrows h st) as [a Ha].
  destruct (runHook cfg env h st) as [c st'] eqn:E. simpl in Ha. subst c.
  unfold bind at 1. unfold bind at 1. rewrite E. simpl. apply IH.
Qed.

(** The hooks do not decide how the loop is left. *)
Lemma forAwait_exit evs ending st :
  fst (forAwait cfg env evs ending st) = Return (loopExitOf evs ending).
Proof.
  revert st. induction evs as [| ev evs IH]; intros st; simpl.
  - destruct ending; reflexivity.
  - destruct ev as [h | m onClose].
    + destruct (runHook_neverThrows h st) as [a Ha].
      destruct (runHook cfg env h st) as [c st'] eqn:E. simpl in Ha. subst c.
      rewrite (bind_Return _ _ _ _ _ E). apply IH.
    + assert (Hclose : forall (x : LoopExit),
                 fst ((runHooks cfg env (closeHooks onClose) ;; ret x) st) = Return x).
      { intros x. pose proof (runHooks_returns (closeHooks onClose) st) as Hr.
        destruct (runHooks cfg env (closeHooks onClose) st) as [c st'] eqn:E.
        simpl in Hr. subst c. rewrite (bind_Return _ _ _ _ _ E). reflexivity. }
      destruct (String.eqb (Msg.type m) "result").
      * destruct (isSuccess m); apply Hclose.
      * destruct (String.eqb (Msg.type m) "error"); [apply Hclose | apply IH].
Qed.

Lemma forAwait_same {B : Type} (f : State -> B) evs ending :
  (forall r st, f (withRequest r st) = f st) ->
  (forall p st, f (withFile p st) = f st) ->
  (forall g st, f (withHookCall g st) = f st) ->
  stable (same f) (forAwait cfg env evs ending).
Proof.
  intros H1 H2 H3. apply forAwait_stable.
  - exact (same_refl f).
  - exact (same_trans f).
  - intros. apply runHook_same; assumption.
Qed.

(** The outcome of [runQuery] is the one the stream alone determines. *)
Lemma runQuery_outcome task st :
  fst (runQuery cfg env task st)
  = outcomeOf (query env (List.length (agentCalls st)) (taskPrompt task)).
Proof.
  unfold runQuery, outcomeOf, outcomeOfExit.
  unfold bind at 1. unfold callQuery at 1.
  set (s := query env (List.length (agentCalls st)) (taskPrompt task)).
  set (st1 := withAgentCall (taskPrompt task) st).
  pose proof (forAwait_exit (events s) (ending s) st1) as Hx.
  destruct (forAwait cfg env (events s) (ending s) st1) as [c st2] eqn:E.
  simpl in Hx. subst c. rewrite (bind_Return _ _ _ _ _ E).
  set (x := loopExitOf (events s) (ending s)).
  unfold bind, ret, throw.
  destruct (thrown x) as [e |]; destruct (Js.truthy (finalResult x)); reflexivity.
Qed.

Lemma runQuery_state task st :
  let st' := snd (runQuery cfg env task st) in
  agentCalls st' = (agentCalls st ++ [taskPrompt task])%list
  /\ completedTaskIds st' = completedTaskIds st
  /\ shellCalls st' = shellCalls st
  /\ sequence st' = (sequence st ++ [Queried (taskPrompt task)])%list.
Proof.
  unfold runQuery. unfold bind at 1. unfold callQuery at 1.
  set (s := query env (List.length (agentCalls st)) (taskPrompt task)).
  set (st1 := withAgentCall (taskPrompt task) st).
  assert (Hrest : forall {B : Type} (f : State -> B),
             (forall r st, f (withRequest r st) = f st) ->
             (forall p st, f (withFile p st) = f st) ->
             (forall g st, f (withHookCall g st) = f st) ->
             stable (same f)
               (x <- forAwait cfg env (events s) (ending s) ;;
                match thrown x with
                | Some iteratorError =>
                    if Js.truthy (finalResult x) then ret tt else throw iteratorError
                | None => ret tt
                end ;;
                if negb (Js.truthy (finalResult x))
                then throw (Err.new "No result received from agent")
                else ret (finalResult x))).
  { intros B f H1 H2 H3. pose proof (forAwait_same f (events s) (ending s) H1 H2 H3).
    stable_same f ltac:(assumption). }
  cbv zeta. repeat split.
  - exact (Hrest _ agentCalls (fun _ _ => eq_refl) (fun _ _ => eq_refl)
                 (fun _ _ => eq_refl) st1).
  - exact (Hrest _ completedTaskIds (fun _ _ => eq_refl) (fun _ _ => eq_refl)
                 (fun _ _ => eq_refl) st1).
  - exact (Hrest _ shellCalls (fun _ _ => eq_refl) (fun _ _ => eq_refl)
                 (fun _ _ => eq_refl) st1).
  - rewrite <- (sequence_withAgentCall (taskPrompt task) st).
    exact (Hrest _ sequence sequence_withRequest sequence_withFile
                 sequence_withHookCall st1).
Qed.

(** A task whose agent succeeds: the loop body returns, the task is
    recorded, and the working tree was inspected once. *)
Lemma processTask_success task st v :
  outcomeOf (query env (List.length (agentCalls st)) (taskPrompt task)) = Return v ->
  exists st',
    processTask cfg env task st = (Return tt, st')
    /\ completedTaskIds st' = (completedTaskIds st ++ [id task])%list
    /\ agentCalls st' = (agentCalls st ++ [taskPrompt task])%list
    /\ shellCalls st' = (shellCalls st ++ ["git status --porcelain"])%list
    /\ sequence st'
       = (sequence st ++ [Queried (taskPrompt task); Completed (id task)])%list.
Proof.
  intros Hout. unfold processTask.
  unfold bind at 1. unfold gets at 1. unfold bind at 1. unfold gets at 1.
  unfold bind at 1. unfold sendProgressUpdate at 1.
  set (st1 := withRequest _ st).
  pose proof (runQuery_outcome task st1) as Ho.
  pose proof (runQuery_state task st1) as (Ha & Hc & Hs & Hq).
  change (agentCalls st1) with (agentCalls st) in Ho, Ha.
  change (completedTaskIds st1) with (completedTaskIds st) in Hc.
  change (shellCalls st1) with (shellCalls st) in Hs.
  unfold st1 in Hq. rewrite sequence_withRequest in Hq. fold st1 in Hq.
  rewrite Hout in Ho.
  destruct (runQuery cfg env task st1) as [c st2] eqn:E. simpl in Ho, Ha, Hc, Hs, Hq.
  subst c.
  unfold bind at 1. unfold tryCatch at 1. unfold ignore at 1. unfold bind at 1.
  rewrite E. unfold ret at 1.
  unfold bind at 1. unfold pushCompleted, modify.
  unfold bind at 1. unfold swallow, tryCatch at 1. unfold ignore at 1. unfold bind at 1.
  set (st3 := withCompleted _ _).
  pose proof (execAsync_state env "git status --porcelain" st3) as Hx.
  destruct (execAsync env "git status --porcelain" st3) as [[r | e] st4];
    simpl in Hx; subst st4; unfold ret, bind, gets, sendProgressUpdate; simpl;
    (eexists; split; [reflexivity |];
     rewrite sequence_withRequest, sequence_withShellCall;
     unfold st3; rewrite sequence_withCompleted, Hq, <- app_assoc;
     simpl; rewrite Ha, Hc, Hs; repeat split).
Qed.

(** A task whose agent fails: the failure is reported and thrown again,
    and the task is not recorded. *)
Lemma processTask_failure task st e :
  outcomeOf (query env (List.length (agentCalls st)) (taskPrompt task)) = Throw e ->
  exists st',
    processTask cfg env task st = (Throw e, st')
    /\ completedTaskIds st' = completedTaskIds st
    /\ agentCalls st' = (agentCalls st ++ [taskPrompt task])%list
    /\ shellCalls st' = shellCalls st
    /\ sequence st' = (sequence st ++ [Queried (taskPrompt task)])%list.
Proof.
  intros Hout. unfold processTask.
  unfold bind at 1. unfold gets at 1. unfold bind at 1. unfold gets at 1.
  unfold bind at 1. unfold sendProgressUpdate at 1.
  set (st1 := withRequest _ st).
  pose proof (runQuery_outcome task st1) as Ho.
  pose proof (runQuery_state task st1) as (Ha & Hc & Hs & Hq).
  change (agentCalls st1) with (agentCalls st) in Ho, Ha.
  change (completedTaskIds st1) with (completedTaskIds st) in Hc.
  change (shellCalls st1) with (shellCalls st) in Hs.
  unfold st1 in Hq. rewrite sequence_withRequest in Hq. fold st1 in Hq.
  rewrite Hout in Ho.
  destruct (runQuery cfg env task st1) as [c st2] eqn:E. simpl in Ho, Ha, Hc, Hs, Hq.
  subst c.
  unfold bind at 1. unfold tryCatch at 1. unfold ignore at 1. unfold bind at 1.
  rewrite E.
  unfold bind, gets, sendProgressUpdate, throw. simpl.
  eexists. split; [reflexivity |].
  rewrite sequence_withRequest, Hq. simpl. rewrite Ha, Hc, Hs. repeat split.
Qed.

End OneTask.

(** ** The task loop *)

Section Loop.

Variable cfg : Config.
Variable env : Env.

Lemma succeeds_true s : succeeds s = true -> exists v, outcomeOf s = Return v.
Proof.
  unfold succeeds. destruct (outcomeOf s) as [v | e]; intros H.
  - exists v. reflexivity.
  - discriminate H.
Qed.

(** Every task succeeds: the loop returns having invoked the agent once per
    task, in list order, and recorded every task. *)
Lemma forEach_all_succeed ts : forall st,
  allSucceed env (List.length (agentCalls st)) ts = true ->
  exists st',
    forEach ts (processTask cfg env) st = (Return tt, st')
    /\ completedTaskIds st' = (completedTaskIds st ++ map id ts)%list
    /\ agentCalls st' = (agentCalls st ++ map taskPrompt ts)%list
    /\ List.length (shellCalls st') = List.length (shellCalls st) + List.length ts
    /\ sequence st' = (sequence st ++ rounds ts)%list.
Proof.
  induction ts as [| t ts IH]; intros st H; simpl in *.
  - exists st. rewrite !app_nil_r. repeat split. lia.
  - apply andb_prop in H. destruct H as [Ht Hts].
    apply succeeds_true in Ht. destruct Ht as [v Hv].
    destruct (processTask_success cfg env t st v Hv) as (st1 & E & Hc & Ha & Hs & Hq).
    rewrite (bind_Return _ _ _ _ _ E).
    destruct (IH st1) as (st2 & E2 & Hc2 & Ha2 & Hs2 & Hq2).
    { rewrite Ha, length_app. simpl. rewrite Nat.add_1_r. exact Hts. }
    exists st2. split; [exact E2 |]. rewrite Hc2, Ha2, Hs2, Hq2, Hc, Ha, Hs, Hq.
    rewrite <- !app_assoc, length_app. simpl. repeat split. lia.
Qed.

(** The first failing task ends the loop. *)
Lemma forEach_first_failure pre t post e : forall st,
  allSucceed env (List.length (agentCalls st)) pre = true ->
  outcomeOf (query env (List.length (agentCalls st) + List.length pre) (taskPrompt t))
  = Throw e ->
  exists st',
    forEach (pre ++ t :: post) (processTask cfg env) st = (Throw e, st')
    /\ completedTaskIds st' = (completedTaskIds st ++ map id pre)%list
    /\ agentCalls st' = (agentCalls st ++ map taskPrompt (pre ++ [t]))%list
    /\ sequence st' = (sequence st ++ rounds pre ++ [Queried (taskPrompt t)])%list.
Proof.
  induction pre as [| p pre IH]; intros st H Hf; simpl in *.
  - rewrite Nat.add_0_r in Hf.
    destruct (processTask_failure cfg env t st e Hf) as (st1 & E & Hc & Ha & _ & Hq).
    rewrite (bind_Throw _ _ _ _ _ E).
    exists st1. rewrite app_nil_r. repeat split; assumption.
  - apply andb_prop in H. destruct H as [Hp Hpre].
    apply succeeds_true in Hp. destruct Hp as [v Hv].
    destruct (processTask_success cfg env p st v Hv) as (st1 & E & Hc & Ha & _ & Hq).
    rewrite (bind_Return _ _ _ _ _ E).
    destruct (IH st1) as (st2 & E2 & Hc2 & Ha2 & Hq2).
    { rewrite Ha, length_app. simpl. rewrite Nat.add_1_r. exact Hpre. }
    { rewrite Ha, length_app. simpl. rewrite Nat.add_1_r. simpl.
      rewrite <- Nat.add_succ_r. exact Hf. }
    exists st2. split; [exact E2 |]. rewrite Hc2, Ha2, Hq2, Hc, Ha, Hq.
    rewrite <- !app_assoc. repeat split.
Qed.

(** The loop returns only after recording every task. *)
Lemma forEach_returns ts : forall st st',
  forEach ts (processTask cfg env) st = (Return tt, st') ->
  completedTaskIds st' = (completedTaskIds st ++ map id ts)%list.
Proof.
  induction ts as [| t ts IH]; intros st st' H; simpl in *.
  - inversion H; subst. symmetry. apply app_nil_r.
  - destruct (outcomeOf (query env (List.length (agentCalls st)) (taskPrompt t)))
      as [v | e] eqn:Ho.
    + destruct (processTask_success cfg env t st v Ho) as (st1 & E & Hc & _).
      rewrite (bind_Return _ _ _ _ _ E) in H.
      rewrite (IH _ _ H), Hc, <- app_assoc. reflexivity.
    + destruct (processTask_failure cfg env t st e Ho) as (st1 & E & _).
      rewrite (bind_Throw _ _ _ _ _ E) in H. discriminate H.
Qed.

Lemma requireAllCompleted_passes st :
  List.length (completedTaskIds st) = List.length (tasks cfg) ->
  requireAllCompleted cfg st = (Return tt, st).
Proof.
  intros H. unfold requireAllCompleted, bind, gets. rewrite H, Nat.eqb_refl. reflexivity.
Qed.

Lemma buildStage_same_shape st :
  completedTaskIds (snd (buildStage cfg env st)) = completedTaskIds st
  /\ agentCalls (snd (buildStage cfg env st)) = agentCalls st.
Proof.
  split.
  - apply (buildStage_stable cfg env (same completedTaskIds)); same_frames.
  - apply (buildStage_stable cfg env (same agentCalls)); same_frames.
Qed.

(** Build and publication call no agent and complete no task. *)
Lemma buildAndPublish_sequence st :
  sequence (snd (buildAndPublish cfg env st)) = sequence st.
Proof. apply (buildAndPublish_stable cfg env (same sequence)); sequence_frames. Qed.

Lemma buildStage_sequence st : sequence (snd (buildStage cfg env st)) = sequence st.
Proof. apply (buildStage_stable cfg env (same sequence)); sequence_frames. Qed.

End Loop.

(* ------------------------------------------------------------------ *)
(** ** The sequencer *)

Lemma run_unfold cfg env :
  run cfg env
  = (taskLoop cfg env ;; requireAllCompleted cfg ;; buildStage cfg env)
      (withRequest (signedRequest cfg (now env 0) "running" "Starting task execution..."
                                  [] [] None None) initialState).
Proof. reflexivity. Qed.

(** Claim C1.  The agent is invoked for the tasks in list order.  The
    prompt is the same text for every task, so the order is read off the
    effects: among them, the calls of the agent and the pushes on
    [completedTaskIds] alternate, each call being followed by the push of
    the id of the task it was made for before the next call is made, the
    ids in list order.  When every invocation succeeds these steps are the
    rounds of the whole list.  When the invocation for a task fails after
    all earlier ones succeeded, [main] ends with that very failure,
    [completedTaskIds] holds exactly the ids of the earlier tasks, and the
    steps are the rounds of the earlier tasks followed by the one call that
    failed: no id is pushed after it and the agent is not called again. *)
Theorem sequencer_runs_in_order_and_aborts (cfg : Config) (env : Env) :
  (allSucceed env 0 (tasks cfg) = true ->
   agentCalls (snd (run cfg env)) = map taskPrompt (tasks cfg)
   /\ completedTaskIds (snd (run cfg env)) = map id (tasks cfg)
   /\ sequence (snd (run cfg env)) = rounds (tasks cfg))
  /\
  (forall pre t post e,
     tasks cfg = (pre ++ t :: post)%list ->
     allSucceed env 0 pre = true ->
     outcomeOf (query env (List.length pre) (taskPrompt t)) = Throw e ->
     fst (run cfg env) = Throw e
     /\ completedTaskIds (snd (run cfg env)) = map id pre
     /\ agentCalls (snd (run cfg env)) = map taskPrompt (pre ++ [t])
     /\ sequence (snd (run cfg env)) = (rounds pre ++ [Queried (taskPrompt t)])%list).
Proof.
  rewrite run_unfold.
  set (st0 := withRequest _ initialState).
  split.
  - intros H.
    destruct (forEach_all_succeed cfg env (tasks cfg) st0 H)
      as (st1 & E & Hc & Ha & _ & Hq).
    unfold taskLoop. rewrite (bind_Return _ _ _ _ _ E).
    rewrite (bind_Return _ _ _ _ _ (requireAllCompleted_passes cfg st1
               ltac:(rewrite Hc; simpl; apply length_map))).
    destruct (buildStage_same_shape cfg env st1) as [Hc' Ha'].
    rewrite buildStage_sequence, Ha', Hc', Ha, Hc, Hq. repeat split.
  - intros pre t post e Hts Hpre Hfail.
    destruct (forEach_first_failure cfg env pre t post e st0 Hpre Hfail)
      as (st1 & E & Hc & Ha & Hq).
    unfold taskLoop. rewrite Hts. rewrite (bind_Throw _ _ _ _ _ E).
    simpl. rewrite Hc, Ha, Hq. repeat split.
Qed.

Lemma sequencer_runs_in_order_and_aborts_witness :
  fst (run Sample.config Sample.secondFails)
  = Throw (Err.new "Task execution failed: ${message.subtype}")
  /\ completedTaskIds (snd (run Sample.config Sample.secondFails)) = ["A"]
  /\ agentCalls (snd (run Sample.config Sample.secondFails))
     = map taskPrompt [Sample.taskA; Sample.taskB]
  /\ sequence (snd (run Sample.config Sample.secondFails))
     = [Queried (taskPrompt Sample.taskA); Completed "A";
        Queried (taskPrompt Sample.taskB)].
Proof.
  apply (proj2 (sequencer_runs_in_order_and_aborts Sample.config Sample.secondFails)
               [Sample.taskA] Sample.taskB [Sample.taskC]
               (Err.new "Task execution failed: ${message.subtype}")).
  - reflexivity.
  - vm_compute. reflexivity.
  - vm_compute. reflexivity.
Defined.

(** The effects of that run, without the requests and the hook calls: the
    second call of the agent is the last call, and nothing is run after
    it. *)
Example effects_when_the_second_task_fails :
  filter (fun e => match e with Sent _ | Hooked _ => false | _ => true end)
         (effects (snd (run Sample.config Sample.secondFails)))
  = [Queried (taskPrompt Sample.taskA); Recorded "src/App.tsx"; Completed "A";
     Ran "git status --porcelain"; Queried (taskPrompt Sample.taskB)].
Proof. vm_compute. reflexivity. Qed.

(** Claim C8.  When the task loop returns normally, started as [main]
    starts it with an empty [completedTaskIds], it has recorded one id per
    task: the list is the list of task ids, its length is the number of
    tasks, and the check before the build passes, so its error branch is
    never taken. *)
Theorem loop_exit_records_every_task (cfg : Config) (env : Env) (st st' : State) :
  completedTaskIds st = [] ->
  taskLoop cfg env st = (Return tt, st') ->
  completedTaskIds st' = map id (tasks cfg)
  /\ List.length (completedTaskIds st') = List.length (tasks cfg)
  /\ requireAllCompleted cfg st' = (Return tt, st').
Proof.
  intros Hempty Hloop. unfold taskLoop in Hloop.
  pose proof (forEach_returns cfg env _ _ _ Hloop) as Hc.
  rewrite Hempty in Hc. simpl in Hc.
  assert (Hlen : List.length (completedTaskIds st') = List.length (tasks cfg)).
  { rewrite Hc. apply length_map. }
  split; [exact Hc | split; [exact Hlen |]].
  apply requireAllCompleted_passes. exact Hlen.
Qed.

Lemma loop_exit_records_every_task_witness :
  completedTaskIds (snd (taskLoop Sample.config Sample.calm initialState)) = ["A"; "B"; "C"]
  /\ List.length (completedTaskIds (snd (taskLoop Sample.config Sample.calm initialState))) = 3
  /\ requireAllCompleted Sample.config (snd (taskLoop Sample.config Sample.calm initialState))
     = (Return tt, snd (taskLoop Sample.config Sample.calm initialState)).
Proof.
  apply (loop_exit_records_every_task Sample.config Sample.calm initialState).
  - reflexivity.
  - vm_compute. reflexivity.
Defined.

(* ------------------------------------------------------------------ *)
(** ** Build and publication *)

Lemma buildStage_unfold cfg env st :
  buildStage cfg env st
  = buildAndPublish cfg env
      (withRequest (signedRequest cfg (now env (List.length (sent st))) "running"
                      "Running build command..." (completedTaskIds st) []
                      (Some "building") None) st).
Proof. reflexivity. Qed.

(** Claim C7, as the script has it.  [buildAndPublish] raises exactly when
    the build command exits with a non-zero code, or exits with zero and a
    non-empty standard error that contains neither [warning] nor [WARN].
    When it raises, the build command is the last command the script ran and
    no request was sent after it: the publication stage did not run. *)
Theorem build_failure_condition (cfg : Config) (env : Env) (st : State) :
  ((exists e, fst (buildAndPublish cfg env st) = Throw e)
   <-> buildFails (shell env (List.length (shellCalls st)) "npm run build") = true)
  /\
  (buildFails (shell env (List.length (shellCalls st)) "npm run build") = true ->
   shellCalls (snd (buildAndPublish cfg env st)) = (shellCalls st ++ ["npm run build"])%list
   /\ sent (snd (buildAndPublish cfg env st)) = sent st).
Proof.
  destruct (buildFails (shell env (List.length (shellCalls st)) "npm run build")) eqn:Hb.
  - destruct (buildAndPublish_fails cfg env st Hb) as [e E]. rewrite E. simpl.
    split; [split; [reflexivity | intros _; exists e; reflexivity] |].
    intros _. split; reflexivity.
  - destruct (buildAndPublish_passes cfg env st Hb) as (st' & later & E & _).
    rewrite E. simpl. split; [split |].
    + intros [e He]. discriminate He.
    + intros H. discriminate H.
    + intros H. discriminate H.
Qed.

Lemma build_failure_condition_witness :
  shellCalls (snd (buildAndPublish Sample.publishing Sample.buildExits1 initialState))
  = ["npm run build"]
  /\ sent (snd (buildAndPublish Sample.publishing Sample.buildExits1 initialState)) = [].
Proof.
  apply (proj2 (build_failure_condition Sample.publishing Sample.buildExits1 initialState)).
  vm_compute. reflexivity.
Defined.

(** Claim C7, as stated, does not hold: a build that exits with code 1 and
    only a warning on standard error raises, and so does a build that exits
    with code 0 and an error text on standard error. *)
Lemma build_failure_as_specified_counterexample :
  ~ (forall (cfg : Config) (env : Env) (st : State),
       (exists e, fst (buildAndPublish cfg env st) = Throw e)
       <-> buildFailsAsSpecified
             (shell env (List.length (shellCalls st)) "npm run build") = true).
Proof.
  intros H.
  destruct (H Sample.config Sample.buildExits1 initialState) as [Hraise _].
  assert (Hfalse : buildFailsAsSpecified (mkExecResult 1 "" "npm WARN deprecated") = true).
  { apply Hraise. eexists. vm_compute. reflexivity. }
  vm_compute in Hfalse. discriminate Hfalse.
Qed.

(** The other half of the difference, for the record. *)
Lemma zero_exit_with_error_text_raises :
  exitCode (shell Sample.buildComplains 0 "npm run build") = 0
  /\ fst (buildAndPublish Sample.config Sample.buildComplains initialState)
     = Throw (Err.new "Build failed: ${stderr}").
Proof. split; vm_compute; reflexivity. Qed.

(** Claim C6.  When every task succeeded and the build passed, [main]
    returns normally and the process exit code is 0, whatever the git
    commands of the publication stage do; the last request sent has status
    [completed] and build status [success].  (The build is the command
    number [length tasks] of the run: one inspection of the working tree
    precedes it for each task.) *)
Theorem publication_failure_is_not_fatal (cfg : Config) (env : Env) :
  allSucceed env 0 (tasks cfg) = true ->
  buildFails (shell env (List.length (tasks cfg)) "npm run build") = false ->
  fst (run cfg env) = Return tt
  /\ processExitCode cfg env = 0
  /\ lastSent reportsSuccess (snd (run cfg env)).
Proof.
  intros Hall Hbuild.
  assert (H : fst (run cfg env) = Return tt /\ lastSent reportsSuccess (snd (run cfg env))).
  { rewrite run_unfold. set (st0 := withRequest _ initialState).
    destruct (forEach_all_succeed cfg env (tasks cfg) st0 Hall) as (st1 & E & Hc & _ & Hs & _).
    unfold taskLoop. rewrite (bind_Return _ _ _ _ _ E).
    rewrite (bind_Return _ _ _ _ _ (requireAllCompleted_passes cfg st1
               ltac:(rewrite Hc; simpl; apply length_map))).
    rewrite buildStage_unfold.
    set (st2 := withRequest _ st1).
    destruct (buildAndPublish_passes cfg env st2) as (st3 & later & E3 & HL & _).
    { change (shellCalls st2) with (shellCalls st1). rewrite Hs. exact Hbuild. }
    rewrite E3. split; [reflexivity | exact HL]. }
  destruct H as [Hret Hlast]. unfold processExitCode. rewrite Hret.
  repeat split; assumption.
Qed.

Lemma publication_failure_is_not_fatal_witness :
  fst (run Sample.publishing Sample.gitBroken) = Return tt
  /\ processExitCode Sample.publishing Sample.gitBroken = 0
  /\ lastSent reportsSuccess (snd (run Sample.publishing Sample.gitBroken)).
Proof.
  apply (publication_failure_is_not_fatal Sample.publishing Sample.gitBroken).
  - vm_compute. reflexivity.
  - vm_compute. reflexivity.
Defined.

(** With every git command failing, the publication stage was entered and
    its failure was reported as a success of the run. *)
Lemma publication_failure_report :
  map (fun r => Payload.currentTask (payload r))
      (skipn 8 (sent (snd (run Sample.publishing Sample.gitBroken))))
  = ["Committing code to GitHub..."; "Build successful (Git push failed)"].
Proof. vm_compute. reflexivity. Qed.

(** The two requests of the build step, in full. *)
Lemma buildStage_requests (cfg : Config) (env : Env) (st : State) :
  exists later,
    sent (snd (buildStage cfg env st))
    = (sent st
       ++ signedRequest cfg (now env (List.length (sent st))) "running"
            "Running build command..." (completedTaskIds st) [] (Some "building") None
       :: later)%list
    /\ (buildFails (shell env (List.length (shellCalls st)) "npm run build") = false ->
        exists later',
          later
          = signedRequest cfg (now env (S (List.length (sent st)))) "completed"
              "Build successful" (completedTaskIds st) [] (Some "success") None
            :: later').
Proof.
  rewrite buildStage_unfold.
  set (st1 := withRequest _ st).
  destruct (buildFails (shell env (List.length (shellCalls st)) "npm run build")) eqn:Hb.
  - destruct (buildAndPublish_fails cfg env st1 Hb) as [e E]. rewrite E. simpl.
    exists []. split; [reflexivity | intros H; discriminate H].
  - destruct (buildAndPublish_passes cfg env st1 Hb) as (st2 & later & E & _ & Hs & _).
    rewrite E. simpl. rewrite Hs. subst st1. simpl.
    rewrite <- app_assoc. simpl. eexists. split; [reflexivity |].
    intros _. exists later. rewrite length_app. simpl. rewrite Nat.add_1_r. reflexivity.
Qed.

(** Claim C10.  Whatever [filesChanged] holds, the request sent just before
    the build has status [running], current task [Running build command...],
    build status [building] and an empty file list; and when the build
    passes, the request sent next has status [completed], current task
    [Build successful], build status [success] and an empty file list. *)
Theorem build_reports_carry_no_files (cfg : Config) (env : Env) (st : State) :
  exists announce later,
    sent (snd (buildStage cfg env st)) = (sent st ++ announce :: later)%list
    /\ announcesBuild (completedTaskIds st) announce
    /\ (buildFails (shell env (List.length (shellCalls st)) "npm run build") = false ->
        exists report later',
          later = report :: later' /\ reportsBuild (completedTaskIds st) report).
Proof.
  destruct (buildStage_requests cfg env st) as (later & Hsent & Hpass).
  eexists _, later. split; [exact Hsent |]. split.
  - repeat split.
  - intros Hb. destruct (Hpass Hb) as (later' & Hlater).
    eexists _, later'. split; [exact Hlater |]. repeat split.
Qed.

Lemma build_reports_carry_no_files_witness :
  exists announce report later,
    sent (snd (buildStage Sample.config Sample.calm
                 (mkState ["A"] ["src/App.tsx"; "src/main.tsx"] [] [] [] [] [])))
    = announce :: report :: later
    /\ announcesBuild ["A"] announce /\ reportsBuild ["A"] report.
Proof.
  destruct (build_reports_carry_no_files Sample.config Sample.calm
              (mkState ["A"] ["src/App.tsx"; "src/main.tsx"] [] [] [] [] []))
    as (announce & later & Hsent & Hannounce & Hpass).
  destruct (Hpass ltac:(vm_compute; reflexivity)) as (report & later' & Hlater & Hreport).
  exists announce, report, later'. rewrite Hsent, Hlater.
  split; [reflexivity | split; assumption].
Defined.

(* ------------------------------------------------------------------ *)
(** ** Hooks *)

(** Claim C5.  Whenever the [SessionEnd] hook runs, in any state, it sends
    one request whose status is [completed], whose build status is
    [success] and whose list of completed tasks is the id of every
    configured task; the hook reads neither [completedTaskIds] nor any
    outcome of the sequencer, and lets the agent continue. *)
Theorem session_end_reports_every_task (cfg : Config) (env : Env) (st : State) :
  exists r,
    onSessionEnd cfg env st = (Return (mkHookOutput true None), withRequest r st)
    /\ Payload.status (payload r) = "completed"
    /\ Payload.buildStatus (payload r) = Some "success"
    /\ Payload.completedTasks (payload r) = map id (tasks cfg)
    /\ Payload.currentTask (payload r) = "All tasks completed"
    /\ Payload.filesChanged (payload r) = filesChanged st.
Proof.
  eexists. split; [reflexivity |]. repeat split.
Qed.

(** While task B fails and only A is recorded, the hook has reported A, B
    and C as completed. *)
Lemma session_end_disagrees_with_sequencer :
  completedTaskIds (snd (run Sample.config Sample.secondFails)) = ["A"]
  /\ map (fun r => Payload.completedTasks (payload r))
         (filter (fun r => String.eqb (Payload.currentTask (payload r)) "All tasks completed")
                 (sent (snd (run Sample.config Sample.secondFails))))
     = [["A"; "B"; "C"]].
Proof. split; vm_compute; reflexivity. Qed.

(* ------------------------------------------------------------------ *)
(** ** The signature *)

Lemma received_ofStrings l : Json.received (Json.ofStrings l) = Json.ofStrings l.
Proof.
  unfold Json.ofStrings. simpl. f_equal. rewrite map_map.
  apply map_ext. intros a. reflexivity.
Qed.

Lemma signedRequest_wellSigned cfg ts s c d fs b e :
  wellSigned cfg (signedRequest cfg ts s c d fs b e).
Proof.
  assert (H3 : forall sig p,
             Json.getProp "signature" (Json.received (envelope p sig)) = Json.Str sig).
  { intros sig [pid st ct dn fl bs er tm]. unfold envelope, Payload.toJson. simpl.
    destruct bs, er; reflexivity. }
  assert (H4 : forall sig p,
             serialize (Json.deleteProp "signature" (Json.received (envelope p sig)))
             = serialize (Payload.toJson p)).
  { intros sig [pid st ct dn fl bs er tm]. unfold envelope, Payload.toJson.
    cbn [Payload.projectId Payload.status Payload.currentTask Payload.completedTasks
         Payload.filesChanged Payload.buildStatus Payload.error Payload.timestamp app].
    cbn [Json.received flat_map snd fst Json.isUndefined app].
    fold (Json.received (Json.ofStrings dn)). fold (Json.received (Json.ofStrings fl)).
    rewrite !received_ofStrings.
    destruct bs, er; reflexivity. }
  unfold wellSigned.
  split; [reflexivity | split; [reflexivity | split; [apply H3 | split; [apply H4 |]]]].
  unfold verify. rewrite H3, H4. apply String.eqb_refl.
Qed.

Lemma send_allWellSigned cfg env s c d fs b e :
  stable (keeps (allWellSigned cfg)) (sendProgressUpdate cfg env s c d fs b e).
Proof.
  intros st H. unfold allWellSigned, sendProgressUpdate in *. simpl.
  apply Forall_app. split; [exact H |].
  constructor; [apply signedRequest_wellSigned | constructor].
Qed.

(** Claim C4.  Every request the script hands to [fetch] during a run
    carries as [signature] the hex HMAC-SHA256, keyed by the webhook secret,
    of the serialization of its payload without the signature; the body is
    the serialization of the payload with the signature added; and the
    receiver, who removes [signature] from the object it received,
    serializes the rest and recomputes the HMAC, obtains the transmitted
    signature.  The signature is a function of the secret and the payload. *)
Theorem every_request_is_well_signed (cfg : Config) (env : Env) (r : Request) :
  In r (sent (snd (run cfg env))) -> wellSigned cfg r.
Proof.
  assert (H : allWellSigned cfg (snd (run cfg env))).
  { unfold run.
    apply (main_stable cfg env (keeps (allWellSigned cfg))).
    - exact (keeps_refl _).
    - exact (keeps_trans _).
    - intros. apply send_allWellSigned.
    - intros cmd st Hst. rewrite execAsync_state. exact Hst.
    - intros prompt st Hst. exact Hst.
    - intros h. apply runHook_stable.
      + exact (keeps_refl _).
      + exact (keeps_trans _).
      + intros. apply send_allWellSigned.
      + intros p st Hst. exact Hst.
      + intros g st Hst. exact Hst.
    - intros t st Hst. exact Hst.
    - constructor. }
  intros Hin. unfold allWellSigned in H. rewrite Forall_forall in H. exact (H r Hin).
Qed.

Lemma every_request_is_well_signed_witness :
  wellSigned Sample.config
    (signedRequest Sample.config "2025-01-01T00:00:00.000Z" "running"
                   "Starting task execution..." [] [] None None).
Proof.
  apply (every_request_is_well_signed Sample.config Sample.calm).
  vm_compute. left. reflexivity.
Defined.

(** The RFC 4231 test case 2 for HMAC-SHA256. *)
Example hmacSha256_rfc4231_case2 :
  Crypto.hmacSha256Hex "Jefe" "what do ya want for nothing?"
  = "5bdcc146bf60754e6a042426089575c75a003f089d2739839dec58b964ec3843".
Proof. vm_compute. reflexivity. Qed.

(** The first request of a run, as transmitted. *)
Example first_request_body :
  body (signedRequest Sample.config "2025-01-01T00:00:00.000Z" "running"
                      "Starting task execution..." [] [] None None)
  = "{" ++ Js.join ","
      [ Json.quote "projectId" ++ ":" ++ Json.quote "p1";
        Json.quote "status" ++ ":" ++ Json.quote "running";
        Json.quote "currentTask" ++ ":" ++ Json.quote "Starting task execution...";
        Json.quote "completedTasks" ++ ":[]";
        Json.quote "filesChanged" ++ ":[]";
        Json.quote "timestamp" ++ ":" ++ Json.quote "2025-01-01T00:00:00.000Z";
        Json.quote "signature" ++ ":"
        ++ Json.quote "ac09a30590668e69d9a044ed54b505dcd632982669b842ba31e42b535d9fafe3" ]
    ++ "}".
Proof. vm_compute. reflexivity. Qed.

(* ------------------------------------------------------------------ *)
(** ** The file list *)

Section Files.

Variable cfg : Config.
Variable env : Env.

Lemma arrayIncludes_In l x : arrayIncludes l x = true <-> In x l.
Proof.
  unfold arrayIncludes. rewrite existsb_exists. split.
  - intros (y & Hy & E). apply String.eqb_eq in E. subst y. exact Hy.
  - intros H. exists x. split; [exact H | apply String.eqb_refl].
Qed.

(** What a hook does to [filesChanged]: it appends the observed path when
    that path is truthy and not yet in the list, and nothing else. *)
Lemma runHook_effect h st :
  filesChanged (snd (runHook cfg env h st))
  = (filesChanged st
     ++ match observedPath h with
        | Some p =>
            if Js.truthy (Some p) && negb (arrayIncludes (filesChanged st) p) then [p] else []
        | None => []
        end)%list
  /\ hookCalls (snd (runHook cfg env h st)) = (hookCalls st ++ [h])%list.
Proof.
  assert (Hrun : runHook cfg env h st
                 = match h with
                   | SessionStart => onSessionStart cfg env
                   | SessionEnd => onSessionEnd cfg env
                   | PreToolUse tool_name tool_input => onPreToolUse cfg env tool_name tool_input
                   | PostToolUse tool_name tool_input =>
                       onPostToolUse cfg env tool_name tool_input
                   end (withHookCall h st)) by reflexivity.
  rewrite Hrun. clear Hrun.
  set (st1 := withHookCall h st).
  change (filesChanged st) with (filesChanged st1).
  change (hookCalls st ++ [h])%list with (hookCalls st1).
  clearbody st1.
  destruct h as [| | tool input | tool input]; simpl;
    try (split; [symmetry; apply app_nil_r | reflexivity]);
    unfold onPreToolUse, onPostToolUse, observedPath;
    (destruct (isWriteOrEdit tool);
      [| split; [symmetry; apply app_nil_r | reflexivity]]);
    unfold bind, gets;
    (destruct (Js.or_ (file_path input) (filePath input)) as [p |];
      [| split; [symmetry; apply app_nil_r | reflexivity]]);
    change (Js.truthy (Some p)) with (negb (Js.isEmpty p));
    (destruct (negb (Js.isEmpty p) && negb (arrayIncludes (filesChanged st1) p));
      [split; reflexivity | split; [symmetry; apply app_nil_r | reflexivity]]).
Qed.

Lemma runHook_files h st :
  filesChanged (snd (runHook cfg env h st))
  = (filesChanged st
     ++ match observedPath h with
        | Some p =>
            if Js.truthy (Some p) && negb (arrayIncludes (filesChanged st) p) then [p] else []
        | None => []
        end)%list.
Proof. apply runHook_effect. Qed.

Lemma runHooks_cons h hs st :
  snd (runHooks cfg env (h :: hs) st)
  = snd (runHooks cfg env hs (snd (runHook cfg env h st))).
Proof.
  unfold runHooks. simpl. unfold ignore at 1.
  destruct (runHook_neverThrows cfg env h st) as [a Ha].
  destruct (runHook cfg env h st) as [c st'] eqn:E. simpl in Ha. subst c.
  unfold bind at 1. unfold bind at 1. rewrite E. reflexivity.
Qed.

(** The list never holds a path twice, and it never loses one. *)
Lemma runHook_files_invariant h st :
  NoDup (filesChanged st) ->
  NoDup (filesChanged (snd (runHook cfg env h st)))
  /\ incl (filesChanged st) (filesChanged (snd (runHook cfg env h st))).
Proof.
  intros Hnd. rewrite runHook_files. split.
  - destruct (observedPath h) as [p |]; [| rewrite app_nil_r; exact Hnd].
    destruct (Js.truthy (Some p)); simpl; [| rewrite app_nil_r; exact Hnd].
    destruct (arrayIncludes (filesChanged st) p) eqn:Hin; simpl.
    + rewrite app_nil_r. exact Hnd.
    + apply NoDup_app.
      * exact Hnd.
      * constructor; [intros [] | constructor].
      * intros a Ha [Hp | []]. subst a.
        apply arrayIncludes_In in Ha. congruence.
  - apply incl_appl. apply incl_refl.
Qed.

Lemma runHook_records p h st :
  p <> "" -> observes p h = true -> In p (filesChanged (snd (runHook cfg env h st))).
Proof.
  intros Hp Hobs. rewrite runHook_files. unfold observes in Hobs.
  destruct (observedPath h) as [q |]; [| discriminate Hobs].
  apply String.eqb_eq in Hobs. subst q.
  assert (Ht : Js.truthy (Some p) = true) by (destruct p; [congruence | reflexivity]).
  rewrite Ht. simpl.
  destruct (arrayIncludes (filesChanged st) p) eqn:Hin; simpl.
  - rewrite app_nil_r. apply arrayIncludes_In. exact Hin.
  - apply in_or_app. right. left. reflexivity.
Qed.

Lemma runHooks_files p hs : forall st,
  p <> "" ->
  NoDup (filesChanged st) ->
  NoDup (filesChanged (snd (runHooks cfg env hs st)))
  /\ incl (filesChanged st) (filesChanged (snd (runHooks cfg env hs st)))
  /\ (existsb (observes p) hs = true -> In p (filesChanged (snd (runHooks cfg env hs st)))).
Proof.
  induction hs as [| h hs IH]; intros st Hp Hnd.
  - simpl. split; [exact Hnd | split; [apply incl_refl | intros H; discriminate H]].
  - rewrite runHooks_cons.
    destruct (runHook_files_invariant h st Hnd) as [Hnd1 Hincl1].
    destruct (IH _ Hp Hnd1) as (Hnd2 & Hincl2 & Hrec).
    split; [exact Hnd2 | split].
    + eapply incl_tran; eassumption.
    + simpl. intros Hex. apply orb_prop in Hex. destruct Hex as [Hh | Hhs].
      * apply Hincl2. apply runHook_records; assumption.
      * apply Hrec. exact Hhs.
Qed.



End Files.

(** *** Nothing is recorded that was not observed *)

Section FilesJustified.

Variable cfg : Config.
Variable env : Env.

Lemma observes_observedPath p h : observedPath h = Some p -> observes p h = true.
Proof. intros H. unfold observes. rewrite H. apply String.eqb_refl. Qed.

Lemma runHook_filesJustified h : stable (keeps filesJustified) (runHook cfg env h).
Proof.
  intros st Hall p Hin.
  destruct (runHook_effect cfg env h st) as [Hfiles Hcalls].
  rewrite Hcalls, existsb_app. rewrite Hfiles in Hin.
  apply in_app_or in Hin. destruct Hin as [Hold | Hnew].
  - destruct (Hall p Hold) as [Hp Hobs]. split; [exact Hp |]. rewrite Hobs. reflexivity.
  - destruct (observedPath h) as [q |] eqn:Hq; [| destruct Hnew].
    destruct (Js.truthy (Some q)) eqn:Ht; simpl in Hnew; [| destruct Hnew].
    destruct (arrayIncludes (filesChanged st) q); simpl in Hnew; [destruct Hnew |].
    destruct Hnew as [E | []]. subst q. split.
    + intros Hp. subst p. discriminate Ht.
    + simpl. rewrite (observes_observedPath p h Hq). rewrite orb_true_r. reflexivity.
Qed.

Lemma run_filesJustified : filesJustified (snd (run cfg env)).
Proof.
  unfold run. apply (main_stable cfg env (keeps filesJustified)).
  - exact (keeps_refl _).
  - exact (keeps_trans _).
  - intros s c d f b e st H. exact H.
  - intros cmd st H. rewrite execAsync_state. exact H.
  - intros prompt st H. exact H.
  - apply runHook_filesJustified.
  - intros t st H. exact H.
  - intros p [].
Qed.

End FilesJustified.

(** *** The two readings of an observation *)


(** The narrower observation is an observation. *)
Lemma names_carries p h : names p h = true -> carries p h = true.
Proof.
  unfold names, carries.
  destruct h as [| | tool_name tool_input | tool_name tool_input]; try discriminate;
    (destruct (isWriteOrEdit tool_name); [simpl | discriminate];
     destruct (holds p (file_path tool_input)); [reflexivity | simpl];
     intros H; apply andb_prop in H; apply H).
Qed.







(** What that run records. *)
Example only_the_first_path_is_recorded :
  filesChanged
    (snd (runHooks Sample.config Sample.calm
            [PreToolUse "Write" (mkToolInput (Some "a.ts") (Some "b.ts"));
             PostToolUse "Write" (mkToolInput (Some "a.ts") (Some "b.ts"))]
            initialState))
  = ["a.ts"].
Proof. vm_compute. reflexivity. Qed.

(** The empty path is never recorded, under whichever name it is given. *)
Example empty_path_is_not_recorded :
  existsb (carries "")
          [PreToolUse "Write" (mkToolInput (Some "") None);
           PostToolUse "Edit" (mkToolInput None (Some ""))]
  = true
  /\ filesChanged
       (snd (runHooks Sample.config Sample.calm
               [PreToolUse "Write" (mkToolInput (Some "") None);
                PostToolUse "Edit" (mkToolInput None (Some ""))]
               initialState))
     = [].
Proof. split; vm_compute; reflexivity. Qed.

(** When all the hook calls observe the same path, the list is that path. *)
Lemma same_path_observed_repeatedly :
  filesChanged
    (snd (runHooks Sample.config Sample.calm
            [PostToolUse "Edit" (Sample.editOf "a.ts");
             PreToolUse "Write" (Sample.writeTo "a.ts");
             PreToolUse "Edit" (Sample.writeTo "a.ts")]
            initialState))
  = ["a.ts"].
Proof. vm_compute. reflexivity. Qed.

(* ------------------------------------------------------------------ *)
(** ** The reducer *)

Lemma loopExitOf_sideChannel pre rest ending :
  forallb sideChannel pre = true ->
  loopExitOf (pre ++ rest) ending = loopExitOf rest ending.
Proof.
  induction pre as [| ev pre IH]; intros H; simpl in *; [reflexivity |].
  apply andb_prop in H. destruct H as [Hev Hpre].
  destruct ev as [h | m onClose]; simpl in Hev.
  - apply IH. exact Hpre.
  - apply andb_prop in Hev. destruct Hev as [H1 H2].
    apply negb_true_iff in H1. apply negb_true_iff in H2.
    rewrite H1, H2. apply IH. exact Hpre.
Qed.

(** A stream that yields a success with a non-empty result text, and fails
    when it is closed after that: the fault is dropped and the task's value
    is the result text. *)
Lemma fault_after_success_is_suppressed (cfg : Config) (env : Env) (task : Task)
    (st : State) (pre rest : list StreamEvent) (ending : Ending)
    (m : Msg.t) (onClose : Closing) (v : string) (e : Err.t) :
  query env (List.length (agentCalls st)) (taskPrompt task)
  = mkStream (pre ++ Yield m onClose :: rest) ending ->
  forallb sideChannel pre = true ->
  Msg.type m = "result" ->
  Msg.subtype m = Some "success" ->
  Msg.result m = Some v ->
  v <> "" ->
  closeFault onClose = Some e ->
  fst (runQuery cfg env task st) = Return (Some v).
Proof.
  intros Hq Hpre Ht Hs Hr Hv Hc.
  rewrite runQuery_outcome, Hq. unfold outcomeOf. simpl.
  rewrite (loopExitOf_sideChannel _ _ _ Hpre). simpl.
  unfold isSuccess. rewrite Ht, Hs. simpl.
  unfold outcomeOfExit. simpl. rewrite Hc, Hr. simpl.
  destruct v; [congruence | reflexivity].
Qed.

(** A stream that fails before any result: the fault is the task's
    failure. *)
Lemma fault_before_success_propagates (cfg : Config) (env : Env) (task : Task)
    (st : State) (pre : list StreamEvent) (e : Err.t) :
  query env (List.length (agentCalls st)) (taskPrompt task) = mkStream pre (Fault e) ->
  forallb sideChannel pre = true ->
  fst (runQuery cfg env task st) = Throw e.
Proof.
  intros Hq Hpre.
  rewrite runQuery_outcome, Hq. unfold outcomeOf. simpl.
  rewrite <- (app_nil_r pre), (loopExitOf_sideChannel _ _ _ Hpre). reflexivity.
Qed.

(** A success whose result is empty or absent does not count: a fault
    raised when the stream is closed after it is thrown. *)
Lemma fault_after_falsy_success_propagates (cfg : Config) (env : Env) (task : Task)
    (st : State) (pre rest : list StreamEvent) (ending : Ending)
    (m : Msg.t) (onClose : Closing) (e : Err.t) :
  query env (List.length (agentCalls st)) (taskPrompt task)
  = mkStream (pre ++ Yield m onClose :: rest) ending ->
  forallb sideChannel pre = true ->
  Msg.type m = "result" ->
  Msg.subtype m = Some "success" ->
  Js.truthy (Msg.result m) = false ->
  closeFault onClose = Some e ->
  fst (runQuery cfg env task st) = Throw e.
Proof.
  intros Hq Hpre Ht Hs Hr Hc.
  rewrite runQuery_outcome, Hq. unfold outcomeOf. simpl.
  rewrite (loopExitOf_sideChannel _ _ _ Hpre). simpl.
  unfold isSuccess. rewrite Ht, Hs. simpl.
  unfold outcomeOfExit. simpl. rewrite Hc, Hr. reflexivity.
Qed.

(** Claim C3 at a success whose result text is empty.  The stream yields a
    [result] message with subtype [success] and the iteration then raises a
    fault: the script throws that fault, because it takes the result text
    itself for the sign that a result was captured.  With no fault at all
    the same message makes the script throw [No result received from
    agent]. *)
Theorem empty_success_result_is_not_kept :
  Msg.type (Sample.successMessage "") = "result"
  /\ Msg.subtype (Sample.successMessage "") = Some "success"
  /\ fst (runQuery Sample.config Sample.emptyResult Sample.taskA initialState)
     = Throw Sample.cleanupNoise
  /\ fst (runQuery Sample.config Sample.emptyResultQuiet Sample.taskA initialState)
     = Throw (Err.new "No result received from agent")
  /\ fst (run Sample.config Sample.emptyResult) = Throw Sample.cleanupNoise.
Proof. repeat split; vm_compute; reflexivity. Qed.

(* ------------------------------------------------------------------ *)
(** ** File names taken from [git status --porcelain] *)

Section Porcelain.

Lemma length_append s1 s2 :
  String.length (s1 ++ s2) = String.length s1 + String.length s2.
Proof. induction s1 as [| c s1 IH]; simpl; [reflexivity | rewrite IH; reflexivity]. Qed.

Lemma trimStart_length s : String.length (Js.trimStart s) <= String.length s.
Proof.
  induction s as [| c s IH]; simpl; [lia |].
  destruct (Js.isWhite c); simpl; lia.
Qed.

Lemma trimEnd_length s : String.length (Js.trimEnd s) <= String.length s.
Proof.
  induction s as [| c s IH]; simpl; [lia |].
  destruct (Js.isWhite c && Js.isEmpty (Js.trimEnd s)); simpl; lia.
Qed.

Lemma trim_length s : String.length (Js.trim s) <= String.length s.
Proof.
  unfold Js.trim. pose proof (trimEnd_length (Js.trimStart s)).
  pose proof (trimStart_length s). lia.
Qed.

Lemma trimStart_fixed s :
  String.length (Js.trimStart s) = String.length s -> Js.trimStart s = s.
Proof.
  destruct s as [| c s]; simpl; [reflexivity |].
  destruct (Js.isWhite c); [| reflexivity].
  intros H. pose proof (trimStart_length s). lia.
Qed.

(** A text that [trim] leaves alone has no white space at either end. *)
Lemma trim_fixed s : Js.trim s = s -> Js.trimStart s = s /\ Js.trimEnd s = s.
Proof.
  intros H. unfold Js.trim in H.
  assert (Hs : Js.trimStart s = s).
  { apply trimStart_fixed. pose proof (trimEnd_length (Js.trimStart s)).
    pose proof (trimStart_length s). rewrite H in *. lia. }
  rewrite Hs in H. split; assumption.
Qed.

Lemma trimEnd_idempotent s : Js.trimEnd (Js.trimEnd s) = Js.trimEnd s.
Proof.
  induction s as [| c s IH]; simpl; [reflexivity |].
  destruct (Js.isWhite c && Js.isEmpty (Js.trimEnd s)) eqn:E; [reflexivity |].
  simpl. rewrite IH, E. reflexivity.
Qed.

Lemma trimStart_head s :
  Js.trimStart s = ""
  \/ exists c t, Js.trimStart s = String c t /\ Js.isWhite c = false.
Proof.
  induction s as [| c s IH]; simpl; [left; reflexivity |].
  destruct (Js.isWhite c) eqn:E; [exact IH |].
  right. exists c, s. split; [reflexivity | exact E].
Qed.

(** [trim] leaves its own results alone. *)
Lemma trim_idempotent s : Js.trim (Js.trim s) = Js.trim s.
Proof.
  unfold Js.trim. destruct (trimStart_head s) as [E | (c & t & E & Hc)]; rewrite E.
  - reflexivity.
  - assert (Hend : Js.trimEnd (String c t) = String c (Js.trimEnd t)).
    { simpl. rewrite Hc. reflexivity. }
    rewrite Hend. simpl Js.trimStart. rewrite Hc. rewrite <- Hend.
    apply trimEnd_idempotent.
Qed.

Lemma isEmpty_false s : s <> "" -> Js.isEmpty s = false.
Proof. destruct s; [congruence | reflexivity]. Qed.

Lemma trimEnd_cons c s :
  Js.trimEnd s = s -> s <> "" -> Js.trimEnd (String c s) = String c s.
Proof.
  intros H Hne. simpl. rewrite H, (isEmpty_false s Hne), andb_false_r. reflexivity.
Qed.

Lemma statusLetter_inv c :
  statusLetter c = true ->
  Regex.letterS c = false /\ Regex.dot c = true
  /\ (c = " "%char \/ Js.isWhite c = false).
Proof.
  unfold statusLetter. simpl. rewrite !orb_true_iff.
  intros H.
  repeat match goal with
         | H : _ \/ _ |- _ => destruct H as [H | H]
         end;
    try discriminate H;
    apply Ascii.eqb_eq in H; subst c; vm_compute; auto.
Qed.

(** The end of the pattern: the group is everything that is left. *)
Lemma plus_constant (cls : ascii -> bool) (k : Regex.cont) (a g : string) :
  (forall s r, k s = Some r -> r = a) ->
  forall s, Regex.plus cls s k = Some g -> g = a.
Proof.
  intros Hk. induction s as [| c s IH]; simpl; intros H; [discriminate H |].
  destruct (cls c); [| discriminate H].
  destruct (Regex.plus cls s k) as [r |] eqn:E.
  - inversion H; subst. apply IH. reflexivity.
  - symmetry. exact (eq_sym (Hk _ _ H)).
Qed.

Lemma groupToEnd_result s g : Regex.groupToEnd s = Some g -> g = s.
Proof.
  unfold Regex.groupToEnd. apply plus_constant.
  intros s3 r H. destruct (Js.isEmpty s3); [inversion H; reflexivity | discriminate H].
Qed.

(** After [s+] has taken at least one letter, the group is shorter than
    the text [s+] started from. *)
Lemma plus_letterS_shorter s : forall g,
  Regex.plus Regex.letterS s Regex.groupToEnd = Some g -> String.length g < String.length s.
Proof.
  induction s as [| c s IH]; simpl; intros g H; [discriminate H |].
  destruct (Regex.letterS c); [| discriminate H].
  destruct (Regex.plus Regex.letterS s Regex.groupToEnd) as [r |] eqn:E.
  - inversion H; subst. specialize (IH g eq_refl). lia.
  - apply groupToEnd_result in H. subst g. lia.
Qed.

Lemma splitRuns_nonempty b s : Regex.splitRuns b s <> [].
Proof.
  revert b. induction s as [| c s IH]; intros b; simpl; [discriminate |].
  destruct (Regex.letterS c).
  - destruct b; [apply IH | discriminate].
  - destruct (Regex.splitRuns false s); discriminate.
Qed.

Lemma join_cons sep p ps :
  ps <> [] -> Js.join sep (p :: ps) = p ++ sep ++ Js.join sep ps.
Proof. destruct ps; [congruence | reflexivity]. Qed.

Lemma join_cons_char sep c p ps :
  Js.join sep (String c p :: ps) = String c (Js.join sep (p :: ps)).
Proof. destruct ps; reflexivity. Qed.

(** Joining the pieces with one space never gives more than the text. *)
Lemma join_split_length s :
  String.length (Js.join " " (Regex.splitRuns true s)) <= String.length s
  /\ String.length (Js.join " " (Regex.splitRuns false s)) <= String.length s.
Proof.
  induction s as [| c s [IHt IHf]]; simpl; [split; lia |].
  destruct (Regex.letterS c).
  - split; [lia |].
    rewrite (join_cons " " "" _ (splitRuns_nonempty true s)). simpl. lia.
  - destruct (Regex.splitRuns false s) as [| p ps] eqn:E.
    + exfalso. exact (splitRuns_nonempty false s E).
    + rewrite join_cons_char. cbn [String.length]. split; lia.
Qed.

(** What follows the first separator is shorter than the text. *)
Lemma join_split_tail s :
  tl (Regex.splitRuns false s) <> [] ->
  String.length (Js.join " " (tl (Regex.splitRuns false s))) < String.length s.
Proof.
  induction s as [| c s IH]; simpl; [congruence |].
  destruct (Regex.letterS c); simpl.
  - intros _. pose proof (join_split_length s) as [Ht _]. lia.
  - destruct (Regex.splitRuns false s) as [| p ps] eqn:E; simpl in *.
    + congruence.
    + intros H. specialize (IH H). lia.
Qed.

Lemma splitRuns_other c s :
  Regex.letterS c = false ->
  tl (Regex.splitRuns false (String c s)) = tl (Regex.splitRuns false s)
  /\ List.length (Regex.splitRuns false (String c s))
     = List.length (Regex.splitRuns false s).
Proof.
  intros H. simpl. rewrite H.
  destruct (Regex.splitRuns false s) as [| p ps] eqn:E.
  - exfalso. exact (splitRuns_nonempty false s E).
  - split; reflexivity.
Qed.

(** The fallback of [extractFilename] on a text [t] that ends with [path]
    after a prefix without the letter [s]. *)
Lemma fallback_differs (t path : string) :
  tl (Regex.splitOnS t) = tl (Regex.splitRuns false path) ->
  List.length (Regex.splitOnS t) = List.length (Regex.splitRuns false path) ->
  String.length path < String.length t ->
  (if Nat.ltb 1 (List.length (Regex.splitOnS t))
   then Js.trim (Js.join " " (tl (Regex.splitOnS t)))
   else t) <> path.
Proof.
  intros Htl Hlen Hlonger.
  destruct (Nat.ltb 1 (List.length (Regex.splitOnS t))) eqn:E.
  - apply Nat.ltb_lt in E. rewrite Htl. intros Heq.
    assert (Hne : tl (Regex.splitRuns false path) <> []).
    { rewrite Hlen in E. destruct (Regex.splitRuns false path) as [| p [| q ps]];
        simpl in *; [lia | lia | discriminate]. }
    pose proof (join_split_tail path Hne).
    pose proof (trim_length (Js.join " " (tl (Regex.splitRuns false path)))).
    rewrite Heq in *. lia.
  - intros Heq. rewrite Heq in Hlonger. lia.
Qed.

End Porcelain.

(** What [extractFilename] returns has no white space around it. *)
Lemma extractFilename_trimmed line : Js.trim (extractFilename line) = extractFilename line.
Proof.
  unfold extractFilename.
  assert (Hfb : Js.trim (if Nat.ltb 1 (List.length (Regex.splitOnS (Js.trim line)))
                         then Js.trim (Js.join " " (tl (Regex.splitOnS (Js.trim line))))
                         else Js.trim line)
                = (if Nat.ltb 1 (List.length (Regex.splitOnS (Js.trim line)))
                   then Js.trim (Js.join " " (tl (Regex.splitOnS (Js.trim line))))
                   else Js.trim line)).
  { destruct (Nat.ltb 1 _); apply trim_idempotent. }
  destruct (Regex.statusPrefix (Js.trim line)) as [g |]; [| exact Hfb].
  destruct (negb (Js.isEmpty g)); [apply trim_idempotent | exact Hfb].
Qed.

(** The case of a path without white space around it. *)
Lemma extracted_name_differs_from_trimmed_path (x y : ascii) (path : string) :
  statusLetter x = true ->
  statusLetter y = true ->
  (x <> " "%char \/ y <> " "%char) ->
  path <> "" ->
  Js.trim path = path ->
  extractFilename (porcelainLine x y path) <> path.
Proof.
  intros Hx Hy Hxy Hne Htrim.
  destruct (statusLetter_inv x Hx) as (Hxs & Hxd & Hxw).
  destruct (statusLetter_inv y Hy) as (Hys & Hyd & Hyw).
  destruct (trim_fixed path Htrim) as [_ Hend].
  assert (Hsp : Regex.letterS " "%char = false) by reflexivity.
  assert (Hspd : Regex.dot " "%char = true) by reflexivity.
  pose proof (trimEnd_cons " "%char path Hend Hne) as He1.
  pose proof (trimEnd_cons y _ He1 ltac:(discriminate)) as He2.
  pose proof (trimEnd_cons x _ He2 ltac:(discriminate)) as He3.
  unfold extractFilename.
  destruct Hxw as [Hx' | Hx'].
  - (* the line starts with a blank: [trim] removes it *)
    subst x. destruct Hxy as [Hxy | Hxy]; [congruence |].
    destruct Hyw as [Hy' | Hy']; [congruence |].
    assert (Ht : Js.trim (porcelainLine " "%char y path) = String y (String " "%char path)).
    { unfold Js.trim, porcelainLine. simpl. rewrite Hy'. exact He2. }
    rewrite Ht.
    assert (Hm : Regex.statusPrefix (String y (String " "%char path))
                 = Regex.plus Regex.letterS path Regex.groupToEnd).
    { unfold Regex.statusPrefix. simpl. rewrite Hyd. simpl.
      destruct (Regex.plus Regex.letterS path Regex.groupToEnd); reflexivity. }
    rewrite Hm.
    assert (Hfb : (if Nat.ltb 1 (List.length (Regex.splitOnS (String y (String " "%char path))))
                   then Js.trim (Js.join " "
                                   (tl (Regex.splitOnS (String y (String " "%char path)))))
                   else String y (String " "%char path)) <> path).
    { destruct (splitRuns_other " "%char path Hsp) as [T1 L1].
      destruct (splitRuns_other y (String " "%char path) Hys) as [T2 L2].
      apply fallback_differs.
      - unfold Regex.splitOnS. rewrite T2. exact T1.
      - unfold Regex.splitOnS. rewrite L2. exact L1.
      - simpl. lia. }
    destruct (Regex.plus Regex.letterS path Regex.groupToEnd) as [g |] eqn:E; [| exact Hfb].
    destruct (negb (Js.isEmpty g)); [| exact Hfb].
    intros Heq. pose proof (plus_letterS_shorter path g E).
    pose proof (trim_length g). rewrite Heq in *. lia.
  - (* the line starts with a letter: [trim] changes nothing *)
    assert (Ht : Js.trim (porcelainLine x y path) = porcelainLine x y path).
    { unfold Js.trim, porcelainLine. simpl. rewrite Hx'. exact He3. }
    rewrite Ht. unfold porcelainLine.
    assert (Hm : Regex.statusPrefix (String x (String y (String " "%char path))) = None).
    { unfold Regex.statusPrefix. simpl. rewrite Hxd, Hyd, Hys. reflexivity. }
    rewrite Hm.
    destruct (splitRuns_other " "%char path Hsp) as [T1 L1].
    destruct (splitRuns_other y (String " "%char path) Hys) as [T2 L2].
    destruct (splitRuns_other x (String y (String " "%char path)) Hxs) as [T3 L3].
    apply fallback_differs.
    + unfold Regex.splitOnS. rewrite T3, T2. exact T1.
    + unfold Regex.splitOnS. rewrite L3, L2. exact L1.
    + simpl. lia.
Qed.

(** Claim C9.  For every line of [git status --porcelain] made of two
    status letters (not both blank), one space and a non-empty path, the
    name [extractFilename] returns is not the path: the pattern asks for the
    letter [s] where white space stands, and so does the split of the
    fallback. *)
Theorem extracted_name_differs_from_path (x y : ascii) (path : string) :
  statusLetter x = true ->
  statusLetter y = true ->
  (x <> " "%char \/ y <> " "%char) ->
  path <> "" ->
  extractFilename (porcelainLine x y path) <> path.
Proof.
  intros Hx Hy Hxy Hne.
  destruct (string_dec (Js.trim path) path) as [Htrim | Htrim].
  - apply extracted_name_differs_from_trimmed_path; assumption.
  - intros Heq. apply Htrim. rewrite <- Heq. apply extractFilename_trimmed.
Qed.

Lemma extracted_name_differs_from_path_witness :
  extractFilename " M src/App.tsx" <> "src/App.tsx"
  /\ extractFilename "?? newfile.txt" <> "newfile.txt".
Proof.
  split.
  - apply (extracted_name_differs_from_path " "%char "M"%char "src/App.tsx").
    + reflexivity.
    + reflexivity.
    + right. discriminate.
    + discriminate.
  - apply (extracted_name_differs_from_path "?"%char "?"%char "newfile.txt").
    + reflexivity.
    + reflexivity.
    + left. discriminate.
    + discriminate.
Defined.

(** The two lines of the claim, and what is extracted from them. *)
Example extracted_names :
  map extractFilename [" M src/App.tsx"; "?? newfile.txt"; "A  src/main.ts"]
  = ["rc/App.tsx"; "?? newfile.txt"; "rc/main.t"].
Proof. vm_compute. reflexivity. Qed.

(* ================================================================== *)
(** * Further properties of the script *)

(** ** The run as a whole *)

(** When not every task succeeds there is a first one that fails. *)
Lemma first_failure_exists env ts : forall n,
  allSucceed env n ts = false ->
  exists pre t post e,
    ts = (pre ++ t :: post)%list
    /\ allSucceed env n pre = true
    /\ outcomeOf (query env (n + List.length pre) (taskPrompt t)) = Throw e.
Proof.
  induction ts as [| t ts IH]; intros n H; simpl in H; [discriminate H |].
  destruct (succeeds (query env n (taskPrompt t))) eqn:Ht; simpl in H.
  - destruct (IH (S n) H) as (pre & t' & post & e & Hts & Hpre & Hfail).
    exists (t :: pre), t', post, e. simpl. rewrite Ht, Hpre, Hts.
    repeat split. rewrite <- Nat.add_succ_comm. exact Hfail.
  - unfold succeeds in Ht.
    destruct (outcomeOf (query env n (taskPrompt t))) as [v | e] eqn:Ho; [discriminate Ht |].
    exists [], t, ts, e. simpl. rewrite Nat.add_0_r. repeat split. exact Ho.
Qed.

(** What is left of [main] once every task has succeeded. *)
Lemma run_after_all_tasks cfg env :
  allSucceed env 0 (tasks cfg) = true ->
  exists st,
    run cfg env = buildAndPublish cfg env st
    /\ List.length (shellCalls st) = List.length (tasks cfg)
    /\ completedTaskIds st = map id (tasks cfg)
    /\ agentCalls st = map taskPrompt (tasks cfg)
    /\ sequence st = rounds (tasks cfg).
Proof.
  intros Hall. rewrite run_unfold. set (st0 := withRequest _ initialState).
  destruct (forEach_all_succeed cfg env (tasks cfg) st0 Hall)
    as (st1 & E & Hc & Ha & Hs & Hq).
  unfold taskLoop. rewrite (bind_Return _ _ _ _ _ E).
  rewrite (bind_Return _ _ _ _ _ (requireAllCompleted_passes cfg st1
             ltac:(rewrite Hc; simpl; apply length_map))).
  rewrite buildStage_unfold. eexists. split; [reflexivity |].
  rewrite sequence_withRequest, Hq.
  simpl. rewrite Hs, Hc, Ha. repeat split.
Qed.

(** What [main] comes to when a task fails. *)
Lemma run_at_first_failure cfg env pre t post e :
  tasks cfg = (pre ++ t :: post)%list ->
  allSucceed env 0 pre = true ->
  outcomeOf (query env (List.length pre) (taskPrompt t)) = Throw e ->
  exists st,
    run cfg env = (Throw e, st)
    /\ completedTaskIds st = map id pre
    /\ agentCalls st = map taskPrompt (pre ++ [t])
    /\ sequence st = (rounds pre ++ [Queried (taskPrompt t)])%list.
Proof.
  intros Hts Hpre Hfail. rewrite run_unfold. set (st0 := withRequest _ initialState).
  destruct (forEach_first_failure cfg env pre t post e st0 Hpre Hfail)
    as (st1 & E & Hc & Ha & Hq).
  unfold taskLoop. rewrite Hts, (bind_Throw _ _ _ _ _ E).
  exists st1. repeat split; assumption.
Qed.

(** [main] returns normally exactly when the agent succeeded on every task
    and the build passed; nothing else decides the exit code: not the
    inspections of the working tree after each task, not the publication. *)
Theorem run_succeeds_exactly_when (cfg : Config) (env : Env) :
  (fst (run cfg env) = Return tt
   <-> allSucceed env 0 (tasks cfg) = true
       /\ buildFails (shell env (List.length (tasks cfg)) "npm run build") = false)
  /\ (processExitCode cfg env = 0 <-> fst (run cfg env) = Return tt).
Proof.
  split.
  - split.
    + intros Hrun.
      destruct (allSucceed env 0 (tasks cfg)) eqn:Hall.
      * split; [reflexivity |].
        destruct (run_after_all_tasks cfg env Hall) as (st & E & Hs & _).
        destruct (buildFails (shell env (List.length (tasks cfg)) "npm run build")) eqn:Hb;
          [| reflexivity].
        rewrite <- Hs in Hb.
        destruct (buildAndPublish_fails cfg env st Hb) as [e E'].
        rewrite E, E' in Hrun. discriminate Hrun.
      * destruct (first_failure_exists env (tasks cfg) 0 Hall)
          as (pre & t & post & e & Hts & Hpre & Hfail).
        destruct (run_at_first_failure cfg env pre t post e Hts Hpre Hfail) as (st & E & _).
        rewrite E in Hrun. discriminate Hrun.
    + intros [Hall Hb].
      destruct (run_after_all_tasks cfg env Hall) as (st & E & Hs & _).
      rewrite <- Hs in Hb.
      destruct (buildAndPublish_passes cfg env st Hb) as (st' & later & E' & _).
      rewrite E, E'. reflexivity.
  - unfold processExitCode. destruct (fst (run cfg env)) as [[] | e]; split; intros H;
      try reflexivity; discriminate H.
Qed.

Lemma run_succeeds_exactly_when_witness :
  fst (run Sample.publishing Sample.gitBroken) = Return tt
  /\ processExitCode Sample.publishing Sample.gitBroken = 0.
Proof.
  destruct (run_succeeds_exactly_when Sample.publishing Sample.gitBroken) as [Hrun Hexit].
  assert (H : fst (run Sample.publishing Sample.gitBroken) = Return tt).
  { apply Hrun. split; vm_compute; reflexivity. }
  split; [exact H | apply Hexit; exact H].
Defined.

(** In every run the recorded tasks are the first [k] tasks of the list, in
    order, and the steps of the sequencer are the rounds of those [k] tasks:
    a call of the agent, then the push of the id of the task, task after
    task.  Either that is all and [k] is the number of tasks, or one more
    call follows, made for the task at position [k], and nothing after it:
    no task is taken out of order, none twice, none beyond the first
    failure. *)
Theorem completed_tasks_form_a_prefix (cfg : Config) (env : Env) :
  exists k,
    k <= List.length (tasks cfg)
    /\ completedTaskIds (snd (run cfg env)) = map id (firstn k (tasks cfg))
    /\ ((k = List.length (tasks cfg)
         /\ sequence (snd (run cfg env)) = rounds (tasks cfg))
        \/ (exists t,
              nth_error (tasks cfg) k = Some t
              /\ sequence (snd (run cfg env))
                 = (rounds (firstn k (tasks cfg)) ++ [Queried (taskPrompt t)])%list)).
Proof.
  destruct (allSucceed env 0 (tasks cfg)) eqn:Hall.
  - destruct (run_after_all_tasks cfg env Hall) as (st & E & _ & Hc & _ & Hq).
    exists (List.length (tasks cfg)). rewrite firstn_all, E.
    assert (Hc' : completedTaskIds (snd (buildAndPublish cfg env st)) = completedTaskIds st).
    { apply (buildAndPublish_stable cfg env (same completedTaskIds)); same_frames. }
    rewrite buildAndPublish_sequence, Hc', Hc, Hq.
    split; [lia | split; [reflexivity | left; split; reflexivity]].
  - destruct (first_failure_exists env (tasks cfg) 0 Hall)
      as (pre & t & post & e & Hts & Hpre & Hfail).
    destruct (run_at_first_failure cfg env pre t post e Hts Hpre Hfail)
      as (st & E & Hc & _ & Hq).
    exists (List.length pre). rewrite E, Hts. simpl snd. rewrite Hc, Hq.
    assert (Hfirst : firstn (List.length pre) (pre ++ t :: post) = pre).
    { rewrite firstn_app, firstn_all, Nat.sub_diag. simpl. apply app_nil_r. }
    rewrite Hfirst.
    split; [rewrite length_app; simpl; lia |].
    split; [reflexivity |].
    right. exists t. split; [| reflexivity].
    rewrite nth_error_app2, Nat.sub_diag; [reflexivity | lia].
Qed.

(** Three tasks, the second failing: one round, then the call that
    failed. *)
Example completed_prefix_when_the_second_fails :
  completedTaskIds (snd (run Sample.config Sample.secondFails)) = ["A"]
  /\ List.length (agentCalls (snd (run Sample.config Sample.secondFails))) = 2.
Proof. split; vm_compute; reflexivity. Qed.

(** ** Hooks, again *)

(** Every hook, for every event and in every state, returns without
    throwing and tells the agent to continue; [PreToolUse] approves whatever
    tool is asked for; and no hook touches [completedTaskIds], calls the
    agent or runs a command. *)
Theorem hooks_continue_and_leave_the_sequencer_alone
    (cfg : Config) (env : Env) (h : HookEvent) (st : State) :
  exists out,
    fst (runHook cfg env h st) = Return out
    /\ continue out = true
    /\ permissionDecision out
       = match h with
         | PreToolUse _ _ => Some "approve"
         | _ => None
         end
    /\ completedTaskIds (snd (runHook cfg env h st)) = completedTaskIds st
    /\ agentCalls (snd (runHook cfg env h st)) = agentCalls st
    /\ shellCalls (snd (runHook cfg env h st)) = shellCalls st.
Proof.
  assert (Hstate : completedTaskIds (snd (runHook cfg env h st)) = completedTaskIds st
                   /\ agentCalls (snd (runHook cfg env h st)) = agentCalls st
                   /\ shellCalls (snd (runHook cfg env h st)) = shellCalls st).
  { repeat split.
    - apply (runHook_same completedTaskIds); reflexivity.
    - apply (runHook_same agentCalls); reflexivity.
    - apply (runHook_same shellCalls); reflexivity. }
  assert (Hout : exists out,
             fst (runHook cfg env h st) = Return out
             /\ continue out = true
             /\ permissionDecision out
                = match h with
                  | PreToolUse _ _ => Some "approve"
                  | _ => None
                  end).
  { unfold runHook, bind, modify.
    destruct h as [| | tool input | tool input]; simpl.
    - eexists. repeat split.
    - eexists. repeat split.
    - unfold onPreToolUse, bind, gets.
      destruct (isWriteOrEdit tool); [| eexists; repeat split].
      destruct (Js.or_ (file_path input) (filePath input)) as [p |];
        [| eexists; repeat split].
      destruct (Js.truthy (Some p) && negb _); eexists; repeat split.
    - unfold onPostToolUse, bind, gets.
      destruct (isWriteOrEdit tool); [| eexists; repeat split].
      destruct (Js.or_ (file_path input) (filePath input)) as [p |];
        [| eexists; repeat split].
      destruct (Js.truthy (Some p) && negb _); eexists; repeat split. }
  destruct Hout as (out & H1 & H2 & H3). exists out.
  destruct Hstate as (H4 & H5 & H6). repeat split; assumption.
Qed.

(** At the end of every run, every entry of [filesChanged] is a non-empty
    path that some [PreToolUse]/[PostToolUse] call for [Write] or [Edit]
    carried: the script itself never adds a path, and a hook never records
    an empty one. *)
Theorem recorded_files_were_observed (cfg : Config) (env : Env) (p : string) :
  In p (filesChanged (snd (run cfg env))) ->
  p <> "" /\ existsb (observes p) (hookCalls (snd (run cfg env))) = true.
Proof. intros Hin. exact (run_filesJustified cfg env p Hin). Qed.

Lemma recorded_files_were_observed_witness :
  "src/App.tsx" <> ""
  /\ existsb (observes "src/App.tsx") (hookCalls (snd (run Sample.config Sample.calm))) = true.
Proof.
  apply (recorded_files_were_observed Sample.config Sample.calm).
  vm_compute. left. reflexivity.
Defined.

(** ** The reducer, again *)

(** The first result or error message ends the loop: whatever the agent
    would have done after it (further messages, hook calls, the way the
    stream ends) changes neither the way the loop is left nor the state. *)
Theorem events_after_the_verdict_are_ignored (cfg : Config) (env : Env)
    (pre rest rest' : list StreamEvent) (ending ending' : Ending)
    (m : Msg.t) (onClose : Closing) (st : State) :
  forallb sideChannel pre = true ->
  decides m = true ->
  forAwait cfg env (pre ++ Yield m onClose :: rest) ending st
  = forAwait cfg env (pre ++ Yield m onClose :: rest') ending' st.
Proof.
  intros Hpre Hm. revert st.
  induction pre as [| ev pre IH]; intros st; simpl in *.
  - unfold decides in Hm.
    destruct (String.eqb (Msg.type m) "result"); [reflexivity |].
    simpl in Hm. rewrite Hm. reflexivity.
  - apply andb_prop in Hpre. destruct Hpre as [Hev Hpre].
    destruct ev as [h | m' onClose'].
    + unfold bind. destruct (runHook cfg env h st) as [[out | e] st1]; [| reflexivity].
      apply IH. exact Hpre.
    + simpl in Hev. apply andb_prop in Hev. destruct Hev as [H1 H2].
      apply negb_true_iff in H1. apply negb_true_iff in H2.
      rewrite H1, H2. apply IH. exact Hpre.
Qed.

Lemma events_after_the_verdict_are_ignored_witness :
  forAwait Sample.config Sample.calm (events Sample.failsThenGoesOn) Done initialState
  = forAwait Sample.config Sample.calm
      [Yield Sample.assistantMessage Sample.quietClose;
       Yield Sample.failureMessage Sample.noisyClose]
      (Fault Sample.cleanupNoise) initialState.
Proof.
  apply (events_after_the_verdict_are_ignored Sample.config Sample.calm
           [Yield Sample.assistantMessage Sample.quietClose]).
  - reflexivity.
  - reflexivity.
Defined.

(** A [result] message whose subtype is not [success] fails the task with
    an error whose text is the template as written, [Task execution failed:
    ] followed by the placeholder itself: the subtype of the message is
    not in it, so every failed result fails the task with the same error.
    This is so also when closing the stream after the message fails: the
    fault of the closing is dropped, not thrown. *)
Theorem failed_result_throws_a_fixed_text (cfg : Config) (env : Env) (task : Task)
    (st : State) (pre rest : list StreamEvent) (ending : Ending)
    (m : Msg.t) (onClose : Closing) :
  query env (List.length (agentCalls st)) (taskPrompt task)
  = mkStream (pre ++ Yield m onClose :: rest) ending ->
  forallb sideChannel pre = true ->
  Msg.type m = "result" ->
  isSuccess m = false ->
  fst (runQuery cfg env task st)
  = Throw (Err.new "Task execution failed: ${message.subtype}").
Proof.
  intros Hq Hpre Ht Hs.
  rewrite runQuery_outcome, Hq. unfold outcomeOf. simpl.
  rewrite (loopExitOf_sideChannel _ _ _ Hpre). simpl.
  rewrite Ht, Hs. reflexivity.
Qed.

Lemma failed_result_throws_a_fixed_text_witness :
  fst (runQuery Sample.config
         (mkEnv (fun _ _ => Sample.failsThenGoesOn) (fun _ _ => Sample.ok)
                Sample.clock Sample.url)
         Sample.taskA initialState)
  = Throw (Err.new "Task execution failed: ${message.subtype}").
Proof.
  apply (failed_result_throws_a_fixed_text Sample.config _ Sample.taskA initialState
           [Yield Sample.assistantMessage Sample.quietClose]
           [Hook (PreToolUse "Write" (Sample.writeTo "late.ts"));
            Yield (Sample.successMessage "late") Sample.quietClose]
           Done Sample.failureMessage Sample.noisyClose).
  - reflexivity.
  - reflexivity.
  - reflexivity.
  - reflexivity.
Defined.

(** A stream that ends without a result or an error message, however many
    other messages and hook calls it held, fails the task with
    [No result received from agent]. *)
Theorem silent_stream_is_a_failure (cfg : Config) (env : Env) (task : Task)
    (st : State) (pre : list StreamEvent) :
  query env (List.length (agentCalls st)) (taskPrompt task) = mkStream pre Done ->
  forallb sideChannel pre = true ->
  fst (runQuery cfg env task st) = Throw (Err.new "No result received from agent").
Proof.
  intros Hq Hpre.
  rewrite runQuery_outcome, Hq. unfold outcomeOf. simpl.
  rewrite <- (app_nil_r pre), (loopExitOf_sideChannel _ _ _ Hpre). reflexivity.
Qed.

Lemma silent_stream_is_a_failure_witness :
  fst (runQuery Sample.config
         (mkEnv (fun _ _ => Sample.silentStream) (fun _ _ => Sample.ok)
                Sample.clock Sample.url)
         Sample.taskA initialState)
  = Throw (Err.new "No result received from agent").
Proof.
  apply (silent_stream_is_a_failure Sample.config _ Sample.taskA initialState
           [Hook SessionStart; Yield Sample.assistantMessage Sample.quietClose]).
  - reflexivity.
  - reflexivity.
Defined.

(** A message of type [error] fails the task with an error whose text is
    the template as written, [Agent SDK error: ] followed by the
    placeholder itself: the provider's message is not in it.  The error
    does carry the provider's status (under both [status] and
    [statusCode]), type and cause as fields of their own whenever the
    provider gave them. *)
Theorem error_message_keeps_provider_fields (cfg : Config) (env : Env) (task : Task)
    (st : State) (pre rest : list StreamEvent) (ending : Ending)
    (m : Msg.t) (onClose : Closing) (info : Msg.errorInfo) :
  query env (List.length (agentCalls st)) (taskPrompt task)
  = mkStream (pre ++ Yield m onClose :: rest) ending ->
  forallb sideChannel pre = true ->
  Msg.type m = "error" ->
  Msg.error m = Some info ->
  exists e,
    fst (runQuery cfg env task st) = Throw e
    /\ Err.message e = "Agent SDK error: ${errorDetails.message}"
    /\ Err.statusCode e = Err.status e
    /\ (forall code, Js.or_ (Msg.status info) (Msg.statusCode info) = Some code ->
                     code <> "" -> Err.status e = Some code)
    /\ (forall t, Msg.errorType info = Some t -> t <> "" -> Err.type e = Some t)
    /\ (forall c, Msg.cause info = Some c -> c <> "" -> Err.cause e = Some c).
Proof.
  intros Hq Hpre Ht Hinfo.
  exists (sdkError m). split.
  - rewrite runQuery_outcome, Hq. unfold outcomeOf. simpl.
    rewrite (loopExitOf_sideChannel _ _ _ Hpre). simpl.
    rewrite Ht. reflexivity.
  - unfold sdkError. rewrite Hinfo. simpl. split; [reflexivity |]. split; [reflexivity |].
    repeat split.
    + intros code Hc Hne. rewrite Hc. destruct code; [congruence | reflexivity].
    + intros t Hty Hne. rewrite Hty. destruct t; [congruence | reflexivity].
    + intros c Hc Hne. rewrite Hc. destruct c; [congruence | reflexivity].
Qed.

Lemma error_message_keeps_provider_fields_witness :
  exists e,
    fst (runQuery Sample.config
           (mkEnv (fun _ _ => mkStream [Yield Sample.overloaded Sample.quietClose] Done)
                  (fun _ _ => Sample.ok) Sample.clock Sample.url)
           Sample.taskA initialState)
    = Throw e
    /\ Err.message e = "Agent SDK error: ${errorDetails.message}"
    /\ Err.status e = Some "529"
    /\ Err.type e = Some "overloaded_error".
Proof.
  destruct (error_message_keeps_provider_fields Sample.config
              (mkEnv (fun _ _ => mkStream [Yield Sample.overloaded Sample.quietClose] Done)
                     (fun _ _ => Sample.ok) Sample.clock Sample.url)
              Sample.taskA initialState [] [] Done Sample.overloaded Sample.quietClose
              (Msg.makeError (Some "Overloaded") (Some "529") None
                             (Some "overloaded_error") None)
              eq_refl eq_refl eq_refl eq_refl)
    as (e & Hrun & Hmsg & _ & Hstatus & Htype & _).
  exists e. split; [exact Hrun |]. split; [exact Hmsg |]. split.
  - apply Hstatus; [reflexivity | discriminate].
  - apply Htype; [reflexivity | discriminate].
Defined.

(** ** A failed task *)

Section FailedTask.

Variable cfg : Config.
Variable env : Env.

(** The text of the report, line by line. *)
Lemma fullErrorMsg_lines e :
  fullErrorMsg e
  = Js.join Js.nl
      (failureLines (Js.truthy (Err.status e) || Js.truthy (Err.statusCode e))
                    (Js.truthy (Err.type e)) (Js.truthy (Err.cause e))).
Proof.
  unfold fullErrorMsg, Js.or_.
  destruct (Js.truthy (Err.status e)) eqn:Hs; [rewrite Hs |];
    destruct (Js.truthy (Err.statusCode e)); destruct (Js.truthy (Err.type e));
    destruct (Js.truthy (Err.cause e)); reflexivity.
Qed.

Lemma processTask_failure_report task st e :
  outcomeOf (query env (List.length (agentCalls st)) (taskPrompt task)) = Throw e ->
  exists st',
    processTask cfg env task st = (Throw e, st')
    /\ lastSent (reportsTaskFailure e (completedTaskIds st)) st'
    /\ shellCalls st' = shellCalls st.
Proof.
  intros Hout. unfold processTask.
  unfold bind at 1. unfold gets at 1. unfold bind at 1. unfold gets at 1.
  unfold bind at 1. unfold sendProgressUpdate at 1.
  set (st1 := withRequest _ st).
  pose proof (runQuery_outcome cfg env task st1) as Ho.
  pose proof (runQuery_state cfg env task st1) as (_ & Hc & Hs & _).
  change (agentCalls st1) with (agentCalls st) in Ho.
  change (completedTaskIds st1) with (completedTaskIds st) in Hc.
  change (shellCalls st1) with (shellCalls st) in Hs.
  rewrite Hout in Ho.
  destruct (runQuery cfg env task st1) as [c st2] eqn:E. simpl in Ho, Hc, Hs. subst c.
  unfold bind at 1. unfold tryCatch at 1. unfold ignore at 1. unfold bind at 1.
  rewrite E.
  unfold bind, gets, sendProgressUpdate, throw. simpl.
  eexists. split; [reflexivity |]. split.
  - eexists _, _. split; [reflexivity |].
    unfold reportsTaskFailure. simpl. rewrite Hc, fullErrorMsg_lines. repeat split.
  - simpl. exact Hs.
Qed.

Lemma forEach_failure_report pre t post e : forall st,
  allSucceed env (List.length (agentCalls st)) pre = true ->
  outcomeOf (query env (List.length (agentCalls st) + List.length pre) (taskPrompt t))
  = Throw e ->
  exists st',
    forEach (pre ++ t :: post) (processTask cfg env) st = (Throw e, st')
    /\ lastSent (reportsTaskFailure e (completedTaskIds st ++ map id pre)%list) st'
    /\ List.length (shellCalls st') = List.length (shellCalls st) + List.length pre.
Proof.
  induction pre as [| p pre IH]; intros st H Hf; simpl in *.
  - rewrite Nat.add_0_r in Hf.
    destruct (processTask_failure_report t st e Hf) as (st1 & E & HL & Hs).
    rewrite (bind_Throw _ _ _ _ _ E).
    exists st1. rewrite app_nil_r, Hs. repeat split; [exact HL | lia].
  - apply andb_prop in H. destruct H as [Hp Hpre].
    apply succeeds_true in Hp. destruct Hp as [v Hv].
    destruct (processTask_success cfg env p st v Hv) as (st1 & E & Hc & Ha & Hs & _).
    rewrite (bind_Return _ _ _ _ _ E).
    destruct (IH st1) as (st2 & E2 & HL & Hs2).
    { rewrite Ha, length_app. simpl. rewrite Nat.add_1_r. exact Hpre. }
    { rewrite Ha, length_app. simpl. rewrite Nat.add_1_r. simpl.
      rewrite <- Nat.add_succ_r. exact Hf. }
    exists st2. split; [exact E2 |]. split.
    + rewrite Hc, <- app_assoc in HL. exact HL.
    + rewrite Hs2, Hs, length_app. simpl. lia.
Qed.

End FailedTask.

(** A run that a task failure ends has the report of that failure as its
    last request: status [error]; as current task the template as written,
    [Task failed: ] followed by the placeholder itself, not the description
    of the task; as error text the fixed lines of [failureLines], of which
    the thrown error decides only which are there; and as completed tasks
    the ids of the tasks before the failed one.  The working tree is not
    inspected for the failed task and the build is never started: the
    commands run are the one inspection for each earlier task. *)
Theorem failed_run_ends_with_the_error_report (cfg : Config) (env : Env)
    (pre post : list Task) (t : Task) (e : Err.t) :
  tasks cfg = (pre ++ t :: post)%list ->
  allSucceed env 0 pre = true ->
  outcomeOf (query env (List.length pre) (taskPrompt t)) = Throw e ->
  lastSent (reportsTaskFailure e (map id pre)) (snd (run cfg env))
  /\ shellCalls (snd (run cfg env)) = repeat "git status --porcelain" (List.length pre).
Proof.
  intros Hts Hpre Hfail. rewrite run_unfold. set (st0 := withRequest _ initialState).
  destruct (forEach_failure_report cfg env pre t post e st0 Hpre Hfail)
    as (st1 & E & HL & Hs).
  unfold taskLoop. rewrite Hts, (bind_Throw _ _ _ _ _ E). simpl snd.
  split; [exact HL |].
  assert (Hall : forall ts st,
             Forall (eq "git status --porcelain") (shellCalls st) ->
             Forall (eq "git status --porcelain")
                    (shellCalls (snd (forEach ts (processTask cfg env) st)))).
  { intros ts st. apply (stable_forEach (keeps (fun s =>
        Forall (eq "git status --porcelain") (shellCalls s)))
        (keeps_refl _) (keeps_trans _)).
    intros task st' Hst'.
    destruct (outcomeOf (query env (List.length (agentCalls st')) (taskPrompt task)))
      as [v | e'] eqn:Ho.
    - destruct (processTask_success cfg env task st' v Ho) as (st2 & E2 & _ & _ & Hs2 & _).
      rewrite E2. simpl. rewrite Hs2. apply Forall_app. split; [exact Hst' |].
      constructor; [reflexivity | constructor].
    - destruct (processTask_failure cfg env task st' e' Ho) as (st2 & E2 & _ & _ & Hs2 & _).
      rewrite E2. simpl. rewrite Hs2. exact Hst'. }
  specialize (Hall (pre ++ t :: post)%list st0 (Forall_nil _)).
  rewrite E in Hall. simpl in Hall, Hs.
  rewrite (Forall_eq_repeat Hall), Hs. reflexivity.
Qed.

Lemma failed_run_ends_with_the_error_report_witness :
  lastSent (reportsTaskFailure
              (Err.new "Task execution failed: ${message.subtype}") ["A"])
           (snd (run Sample.config Sample.secondFails))
  /\ shellCalls (snd (run Sample.config Sample.secondFails)) = ["git status --porcelain"].
Proof.
  apply (failed_run_ends_with_the_error_report Sample.config Sample.secondFails
           [Sample.taskA] [Sample.taskC] Sample.taskB).
  - reflexivity.
  - vm_compute. reflexivity.
  - vm_compute. reflexivity.
Defined.

(** ** Publication, again *)

(** Without a repository URL or without a token nothing is published: after
    a passing build the script sends [Build successful] and is done; the
    build is the last command it runs. *)
Theorem publication_needs_url_and_token (cfg : Config) (env : Env) (st : State) :
  Js.isEmpty (githubUrl cfg) = true \/ Js.isEmpty (githubToken cfg) = true ->
  buildFails (shell env (List.length (shellCalls st)) "npm run build") = false ->
  buildAndPublish cfg env st
  = (Return tt,
     withRequest (signedRequest cfg (now env (List.length (sent st))) "completed"
                    "Build successful" (completedTaskIds st) [] (Some "success") None)
                 (withShellCall "npm run build" st)).
Proof.
  intros Hmissing.
  unfold buildFails, buildAndPublish, tryCatch, bind, execAsync, throw, gets,
    sendProgressUpdate, ret.
  set (r := shell env (List.length (shellCalls st)) "npm run build").
  destruct (Nat.eqb (exitCode r) 0); simpl; intros H; [| discriminate H].
  rewrite H. simpl.
  destruct Hmissing as [Hu | Ht].
  - rewrite Hu. reflexivity.
  - rewrite Ht, andb_false_r. reflexivity.
Qed.

Lemma publication_needs_url_and_token_witness :
  shellCalls (snd (buildAndPublish Sample.config Sample.calm initialState))
  = ["npm run build"].
Proof.
  rewrite (publication_needs_url_and_token Sample.config Sample.calm initialState).
  - reflexivity.
  - left. reflexivity.
  - vm_compute. reflexivity.
Defined.

Lemma pushWithFallback_cases (env : Env) (branch : string) (st : State) :
  exists out st',
    pushWithFallback env branch st = (Return out, st')
    /\ if Nat.eqb (exitCode (shell env (List.length (shellCalls st)) (pushCommand branch))) 0
       then pushSucceeded out = true
            /\ shellCalls st' = (shellCalls st ++ [pushCommand branch])%list
       else if String.eqb branch "main"
       then pushSucceeded out = false
            /\ shellCalls st' = (shellCalls st ++ [pushCommand branch])%list
       else pushSucceeded out
            = Nat.eqb (exitCode (shell env (S (List.length (shellCalls st)))
                                       (pushCommand "main"))) 0
            /\ shellCalls st'
               = (shellCalls st ++ [pushCommand branch; pushCommand "main"])%list.
Proof.
  unfold pushWithFallback, tryCatch, bind, execAsync, ret.
  fold (pushCommand branch). change "git push -u origin main 2>&1" with (pushCommand "main").
  destruct (Nat.eqb (exitCode (shell env (List.length (shellCalls st))
                                     (pushCommand branch))) 0).
  - eexists _, _. split; [reflexivity | split; reflexivity].
  - destruct (String.eqb branch "main"); simpl.
    + eexists _, _. split; [reflexivity | split; reflexivity].
    + rewrite length_app. simpl. rewrite Nat.add_1_r.
      destruct (Nat.eqb (exitCode (shell env (S (List.length (shellCalls st)))
                                         (pushCommand "main"))) 0).
      * eexists _, _. split; [reflexivity | split; [reflexivity |]].
        simpl. rewrite <- app_assoc. reflexivity.
      * eexists _, _. split; [reflexivity | split; [reflexivity |]].
        simpl. rewrite <- app_assoc. reflexivity.
Qed.

(** The push never throws and runs one command or two.  If pushing the
    current branch works, that is all.  If it fails and the branch is
    [main], the push has failed.  If it fails and the branch is another one,
    [main] is pushed once as a fallback, and the push has succeeded exactly
    when that second command exits with code 0. *)
Theorem push_falls_back_to_main_once (env : Env) (branch : string) (st : State) :
  exists out st',
    pushWithFallback env branch st = (Return out, st')
    /\ if Nat.eqb (exitCode (shell env (List.length (shellCalls st)) (pushCommand branch))) 0
       then pushSucceeded out = true
            /\ shellCalls st' = (shellCalls st ++ [pushCommand branch])%list
       else if String.eqb branch "main"
       then pushSucceeded out = false
            /\ shellCalls st' = (shellCalls st ++ [pushCommand branch])%list
       else pushSucceeded out
            = Nat.eqb (exitCode (shell env (S (List.length (shellCalls st)))
                                       (pushCommand "main"))) 0
            /\ shellCalls st'
               = (shellCalls st ++ [pushCommand branch; pushCommand "main"])%list.
Proof. apply pushWithFallback_cases. Qed.

(** Finding the branch never throws and never gives an empty name: it is
    the trimmed output of [git branch --show-current] when that command
    succeeds with a non-blank output, and [main] in every other case, also
    when [main] cannot be created. *)
Theorem branch_is_never_empty (env : Env) (st : State) :
  exists b st',
    determineBranch env st = (Return b, st')
    /\ b <> ""
    /\ if Nat.eqb (exitCode (shell env (List.length (shellCalls st))
                                   "git branch --show-current")) 0
          && negb (Js.isEmpty (Js.trim (stdout (shell env (List.length (shellCalls st))
                                                      "git branch --show-current"))))
       then b = Js.trim (stdout (shell env (List.length (shellCalls st))
                                       "git branch --show-current"))
            /\ shellCalls st' = (shellCalls st ++ ["git branch --show-current"])%list
       else b = "main".
Proof.
  unfold determineBranch, tryCatch, bind, execAsync, ret.
  set (r := shell env (List.length (shellCalls st)) "git branch --show-current").
  destruct (Nat.eqb (exitCode r) 0); simpl.
  - destruct (Js.isEmpty (Js.trim (stdout r))) eqn:Hb; simpl.
    + destruct (Nat.eqb (exitCode (shell env _ "git checkout -b main")) 0); simpl.
      * eexists _, _. split; [reflexivity | split; [discriminate | reflexivity]].
      * destruct (Nat.eqb (exitCode (shell env _ "git checkout -b main")) 0); simpl;
          eexists _, _; (split; [reflexivity | split; [discriminate | reflexivity]]).
    + eexists _, _. split; [reflexivity |]. split; [| split; reflexivity].
      intros H. rewrite H in Hb. discriminate Hb.
  - destruct (Nat.eqb (exitCode (shell env _ "git checkout -b main")) 0); simpl;
      eexists _, _; (split; [reflexivity | split; [discriminate | reflexivity]]).
Qed.

Section Pushed.

Variable cfg : Config.
Variable env : Env.

Lemma pushCommand_isPush branch : isPush (pushCommand branch) = true.
Proof. destruct branch; reflexivity. Qed.

Lemma pushWithFallback_pushed branch st out st' :
  pushWithFallback env branch st = (Return out, st') ->
  pushSucceeded out = true ->
  lastCommandPushed env st'.
Proof.
  intros H Hs.
  destruct (pushWithFallback_cases env branch st) as (out0 & st0 & E & Hcases).
  rewrite E in H. inversion H; subst out0 st0. clear H.
  destruct (Nat.eqb (exitCode (shell env (List.length (shellCalls st))
                                     (pushCommand branch))) 0) eqn:E1.
  - destruct Hcases as [_ Hc].
    exists (shellCalls st), (pushCommand branch).
    split; [exact Hc | split; [apply pushCommand_isPush | apply Nat.eqb_eq; exact E1]].
  - destruct (String.eqb branch "main").
    + destruct Hcases as [Hf _]. congruence.
    + destruct Hcases as [Hf Hc]. rewrite Hs in Hf. symmetry in Hf.
      exists (shellCalls st ++ [pushCommand branch])%list, (pushCommand "main").
      split; [rewrite Hc, <- app_assoc; reflexivity |].
      split; [apply pushCommand_isPush |].
      rewrite length_app. simpl. rewrite Nat.add_1_r. apply Nat.eqb_eq. exact Hf.
Qed.

Lemma publishSteps_pushed st st' :
  publishSteps cfg env st = (Return tt, st') ->
  lastCommandPushed env st'.
Proof.
  unfold publishSteps. intros H.
  repeat (apply bind_inv in H; destruct H as (? & ? & ? & H)).
  destruct (parseURL env (githubUrl cfg)) as [[host pathname] |]; [| discriminate H].
  repeat (apply bind_inv in H; destruct H as (? & ? & ? & H)).
  match goal with
  | Hp : pushWithFallback env ?b ?s = (Return ?out, ?s') |- _ =>
      destruct (pushSucceeded out) eqn:Hs; [| discriminate H];
      pose proof (pushWithFallback_pushed b s out s' Hp Hs) as HP
  end.
  unfold bind, gets, sendProgressUpdate in H. inversion H; subst.
  destruct HP as (earlier & cmd & Hc & Hpush & Hexit).
  exists earlier, cmd. repeat split; assumption.
Qed.

Lemma publishSteps_says_pushed :
  ensures (lastSent saysPushed) (publishSteps cfg env).
Proof.
  unfold publishSteps.
  repeat (apply ensures_bind; intros ?).
  destruct (parseURL env (githubUrl cfg)) as [[host pathname] |].
  - repeat (apply ensures_bind; intros ?).
    destruct (pushSucceeded _).
    + repeat (apply ensures_bind; intros ?).
      apply ensures_send. intros ts. reflexivity.
    + apply ensures_throw.
  - apply ensures_throw.
Qed.

Lemma onGitError_says_push_failed e :
  ensures (lastSent saysPushFailed) (onGitError cfg env e).
Proof.
  unfold onGitError. repeat (apply ensures_bind; intros ?).
  apply ensures_send. intros ts. reflexivity.
Qed.

Lemma lastSent_unique (P Q : Request -> Prop) st :
  lastSent P st -> lastSent Q st -> exists r, P r /\ Q r.
Proof.
  intros (e1 & r1 & H1 & HP) (e2 & r2 & H2 & HQ).
  rewrite H1 in H2. apply app_inj_tail in H2. destruct H2 as [_ E]. subst r2.
  exists r1. split; assumption.
Qed.

End Pushed.

Lemma publish_unfold cfg env st :
  publish cfg env st
  = tryCatch (publishSteps cfg env) (onGitError cfg env)
      (withRequest (signedRequest cfg (now env (List.length (sent st))) "running"
                      "Committing code to GitHub..." (completedTaskIds st)
                      (filesChanged st) None None) st).
Proof. reflexivity. Qed.

(** The publication stage ends with one of two reports.  It says [Code
    committed and pushed to GitHub] only when the last command it ran was a
    push that exited with code 0; in every other case it says
    [Build successful (Git push failed)]. *)
Theorem pushed_is_reported_only_after_a_push (cfg : Config) (env : Env) (st : State) :
  (lastSent saysPushed (snd (publish cfg env st))
   \/ lastSent saysPushFailed (snd (publish cfg env st)))
  /\ (lastSent saysPushed (snd (publish cfg env st)) ->
      lastCommandPushed env (snd (publish cfg env st))).
Proof.
  rewrite publish_unfold.
  set (st1 := withRequest _ st).
  unfold tryCatch.
  destruct (publishSteps cfg env st1) as [[[] | e] st2] eqn:E.
  - simpl. split.
    + left. exact (publishSteps_says_pushed cfg env _ _ _ E).
    + intros _. exact (publishSteps_pushed cfg env _ _ E).
  - destruct (onGitError_neverThrows cfg env e st2) as [[] Hret].
    destruct (onGitError cfg env e st2) as [c st3] eqn:E3. simpl in Hret. subst c.
    pose proof (onGitError_says_push_failed cfg env e _ _ _ E3) as Hfailed.
    simpl. split.
    + right. exact Hfailed.
    + intros Hpushed.
      destruct (lastSent_unique _ _ _ Hpushed Hfailed) as (r & H1 & H2).
      unfold saysPushed in H1. unfold saysPushFailed in H2. rewrite H1 in H2.
      discriminate H2.
Qed.

Lemma pushed_is_reported_only_after_a_push_witness :
  lastCommandPushed Sample.featureBranch
    (snd (publish Sample.publishing Sample.featureBranch initialState)).
Proof.
  apply (pushed_is_reported_only_after_a_push Sample.publishing Sample.featureBranch).
  exists (firstn 1 (sent (snd (publish Sample.publishing Sample.featureBranch initialState)))),
         (nth 1 (sent (snd (publish Sample.publishing Sample.featureBranch initialState)))
              (signedRequest Sample.publishing "" "" "" [] [] None None)).
  split; vm_compute; reflexivity.
Defined.

Section CleanTree.

Variable cfg : Config.
Variable env : Env.

Lemma exec_nothingCommitted cmd :
  stagesOrCommits cmd = false -> stable (keeps nothingCommitted) (execAsync env cmd).
Proof.
  intros Hcmd st Hst. rewrite execAsync_state. unfold nothingCommitted in *. simpl.
  rewrite forallb_app, Hst. simpl. rewrite Hcmd. reflexivity.
Qed.

Lemma send_nothingCommitted s c d f b e : stable (keeps nothingCommitted) (sendProgressUpdate cfg env s c d f b e).
Proof. intros st Hst. exact Hst. Qed.

(** A step that runs a command: what follows may use that the value it
    gets is an answer of the shell to that command. *)
Lemma stable_bind_exec {B : Type} cmd (k : ExecResult -> M B) :
  stable (keeps nothingCommitted) (execAsync env cmd) ->
  (forall n, stable (keeps nothingCommitted) (k (shell env n cmd))) ->
  stable (keeps nothingCommitted) (bind (execAsync env cmd) k).
Proof.
  intros Hx Hk st. specialize (Hx st). unfold bind. unfold execAsync in *.
  destruct (Nat.eqb (exitCode (shell env (List.length (shellCalls st)) cmd)) 0);
    simpl in *.
  - eapply keeps_trans; [exact Hx | apply Hk].
  - exact Hx.
Qed.

Ltac committed_nothing :=
  repeat stable_step (keeps_refl nothingCommitted) (keeps_trans nothingCommitted)
    ltac:(first [ apply send_nothingCommitted
                | apply exec_nothingCommitted; reflexivity ]).

Lemma publishSteps_clean_tree :
  (forall n, Js.isEmpty (Js.trim (stdout (shell env n "git status --porcelain"))) = true) ->
  stable (keeps nothingCommitted) (publishSteps cfg env).
Proof.
  intros Hclean. unfold publishSteps, determineBranch, pushWithFallback, swallow.
  do 4 (apply (stable_bind _ (keeps_trans nothingCommitted));
        [committed_nothing | intros ?]).
  destruct (parseURL env (githubUrl cfg)) as [[host pathname] |];
    [| apply (stable_throw _ (keeps_refl nothingCommitted))].
  apply (stable_bind _ (keeps_trans nothingCommitted)); [committed_nothing | intros ?].
  apply stable_bind_exec; [apply exec_nothingCommitted; reflexivity | intros n].
  rewrite (Hclean n), orb_true_r.
  committed_nothing.
Qed.

End CleanTree.

(** With a clean working tree (every [git status --porcelain] prints
    nothing but white space) the publication stage stages nothing and
    commits nothing: neither [git add -A] nor a [git commit] is among the
    commands it runs, whatever else happens. *)
Theorem clean_tree_is_not_committed (cfg : Config) (env : Env) (st : State) :
  (forall n, Js.isEmpty (Js.trim (stdout (shell env n "git status --porcelain"))) = true) ->
  nothingCommitted st ->
  nothingCommitted (snd (publish cfg env st)).
Proof.
  intros Hclean. revert st.
  change (stable (keeps nothingCommitted) (publish cfg env)).
  pose proof (publishSteps_clean_tree cfg env Hclean) as Hsteps.
  unfold publish, onGitError.
  repeat stable_step (keeps_refl nothingCommitted) (keeps_trans nothingCommitted)
    ltac:(first [ exact Hsteps
                | apply send_nothingCommitted
                | apply exec_nothingCommitted; reflexivity ]).
Qed.

Lemma clean_tree_is_not_committed_witness :
  nothingCommitted (snd (publish Sample.publishing Sample.calm initialState)).
Proof.
  apply (clean_tree_is_not_committed Sample.publishing Sample.calm initialState).
  - intros n. reflexivity.
  - reflexivity.
Defined.

(** With changes in the working tree and every command succeeding, the
    stage does stage and commit. *)
Example dirty_tree_is_committed :
  let env := mkEnv (fun _ _ => Sample.goodStream)
                   (fun _ cmd => if String.eqb cmd "git status --porcelain"
                                 then mkExecResult 0 (" M src/App.tsx" ++ Js.nl) ""
                                 else Sample.ok)
                   Sample.clock Sample.url in
  existsb stagesOrCommits (shellCalls (snd (publish Sample.publishing env initialState)))
  = true.
Proof. vm_compute. reflexivity. Qed.

(** *** The commit message on its way to the shell *)

Lemma append_assoc (a b c : string) : (a ++ b) ++ c = a ++ (b ++ c).
Proof. induction a as [| x a IH]; simpl; [reflexivity | rewrite IH; reflexivity]. Qed.

Lemma replaceChar_app c by_ s t :
  Js.replaceChar c by_ (s ++ t) = Js.replaceChar c by_ s ++ Js.replaceChar c by_ t.
Proof.
  induction s as [| d s IH]; simpl; [reflexivity |].
  rewrite IH. destruct (Ascii.eqb d c); simpl.
  - symmetry. apply append_assoc.
  - reflexivity.
Qed.

Lemma replaceChar_absent c by_ s :
  allChars (fun d => negb (Ascii.eqb d c)) s = true -> Js.replaceChar c by_ s = s.
Proof.
  induction s as [| d s IH]; simpl; [reflexivity |].
  intros H. apply andb_prop in H. destruct H as [Hd Hs].
  destruct (Ascii.eqb d c); [discriminate Hd |]. simpl. rewrite (IH Hs). reflexivity.
Qed.

Lemma replaceChar_self c s : Js.replaceChar c (String c "") s = s.
Proof.
  induction s as [| d s IH]; simpl; [reflexivity |].
  rewrite IH. destruct (Ascii.eqb d c) eqn:E; [| reflexivity].
  apply Ascii.eqb_eq in E. subst d. reflexivity.
Qed.

Lemma allChars_weaken (f g : ascii -> bool) s :
  (forall c, f c = true -> g c = true) -> allChars f s = true -> allChars g s = true.
Proof.
  intros Hfg. induction s as [| d s IH]; simpl; [reflexivity |].
  intros H. apply andb_prop in H. destruct H as [Hd Hs].
  rewrite (Hfg _ Hd), (IH Hs). reflexivity.
Qed.

(** Whatever the commit message is, its escaped form ends with a dollar
    sign the message did not have: the third replacement matches the empty
    text at the end of the input and puts the sign there.  What precedes it
    is the message with its backslashes doubled and its backticks
    prefixed. *)
Theorem escaped_message_ends_with_a_dollar (commitMessage : string) :
  escapeMessage commitMessage
  = Js.replaceChar (Js.chr 96) (Js.backslash ++ Js.backtick)
      (Js.replaceChar (Js.chr 92) (Js.backslash ++ Js.backslash) commitMessage)
    ++ "$".
Proof.
  unfold escapeMessage. cbv zeta.
  change Js.dq with (String (Js.chr 34) "").
  rewrite replaceChar_self, replaceChar_app. reflexivity.
Qed.

(** A message without backslash and backtick reaches the shell as it is,
    followed by a dollar sign: its double quotes and its dollar signs are
    not escaped. *)
Theorem quotes_and_dollars_are_not_escaped (commitMessage : string) :
  allChars (fun c => negb (needsEscape c)) commitMessage = true ->
  escapeMessage commitMessage = commitMessage ++ "$".
Proof.
  intros Hplain. unfold escapeMessage. cbv zeta.
  change Js.dq with (String (Js.chr 34) "").
  rewrite replaceChar_self, replaceChar_app.
  rewrite (replaceChar_absent (Js.chr 92)).
  - rewrite (replaceChar_absent (Js.chr 96)); [reflexivity |].
    revert Hplain. apply allChars_weaken. intros c. unfold needsEscape.
    destruct (Ascii.eqb c (Js.chr 96)); [rewrite orb_true_r; discriminate | reflexivity].
  - revert Hplain. apply allChars_weaken. intros c. unfold needsEscape.
    destruct (Ascii.eqb c (Js.chr 92)); [discriminate | reflexivity].
Qed.

Lemma quotes_and_dollars_are_not_escaped_witness :
  escapeMessage ("say " ++ Js.dq ++ "hi" ++ Js.dq ++ " to $HOME")
  = ("say " ++ Js.dq ++ "hi" ++ Js.dq ++ " to $HOME") ++ "$".
Proof.
  apply (quotes_and_dollars_are_not_escaped ("say " ++ Js.dq ++ "hi" ++ Js.dq ++ " to $HOME")).
  reflexivity.
Defined.

(** *** Status lines without the letter s *)

Lemma allChars_trimStart f s : allChars f s = true -> allChars f (Js.trimStart s) = true.
Proof.
  induction s as [| c s IH]; simpl; [reflexivity |].
  intros H. destruct (Js.isWhite c).
  - apply andb_prop in H. apply IH, H.
  - exact H.
Qed.

Lemma allChars_trimEnd f s : allChars f s = true -> allChars f (Js.trimEnd s) = true.
Proof.
  induction s as [| c s IH]; simpl; [reflexivity |].
  intros H. apply andb_prop in H. destruct H as [Hc Hs]. specialize (IH Hs).
  destruct (Js.isWhite c && Js.isEmpty (Js.trimEnd s)); simpl; [reflexivity |].
  rewrite Hc, IH. reflexivity.
Qed.

Lemma plus_letterS_absent s k :
  allChars (fun c => negb (Regex.letterS c)) s = true -> Regex.plus Regex.letterS s k = None.
Proof.
  destruct s as [| c s]; simpl; [reflexivity |].
  intros H. apply andb_prop in H. destruct H as [Hc _].
  destruct (Regex.letterS c); [discriminate Hc | reflexivity].
Qed.

Lemma statusPrefix_absent s :
  allChars (fun c => negb (Regex.letterS c)) s = true -> Regex.statusPrefix s = None.
Proof.
  unfold Regex.statusPrefix. destruct s as [| c s]; simpl; [reflexivity |].
  intros H. apply andb_prop in H. destruct H as [_ Hs].
  destruct (Regex.dot c); [| reflexivity].
  destruct s as [| d s]; simpl.
  - reflexivity.
  - simpl in Hs. apply andb_prop in Hs. destruct Hs as [Hd Ht].
    destruct (Regex.letterS d); [discriminate Hd |].
    destruct (Regex.dot d); [rewrite (plus_letterS_absent s _ Ht) |]; reflexivity.
Qed.

Lemma splitRuns_absent s :
  allChars (fun c => negb (Regex.letterS c)) s = true -> Regex.splitRuns false s = [s].
Proof.
  induction s as [| c s IH]; simpl; [reflexivity |].
  intros H. apply andb_prop in H. destruct H as [Hc Hs].
  destruct (Regex.letterS c); [discriminate Hc |].
  rewrite (IH Hs). reflexivity.
Qed.

(** A status line without the letter s is returned whole, trimmed: the
    pattern finds nothing to match, the split gives one piece, and the
    status letters stay in front of the path. *)
Theorem line_without_s_keeps_its_status (line : string) :
  allChars (fun c => negb (Regex.letterS c)) line = true ->
  extractFilename line = Js.trim line.
Proof.
  intros H.
  assert (Ht : allChars (fun c => negb (Regex.letterS c)) (Js.trim line) = true).
  { unfold Js.trim. apply allChars_trimEnd, allChars_trimStart, H. }
  unfold extractFilename. cbv zeta.
  rewrite (statusPrefix_absent _ Ht). unfold Regex.splitOnS.
  rewrite (splitRuns_absent _ Ht). reflexivity.
Qed.

Lemma line_without_s_keeps_its_status_witness :
  extractFilename " M README.md" = Js.trim " M README.md".
Proof.
  apply (line_without_s_keeps_its_status " M README.md"). reflexivity.
Defined.

(** *** The checks made while the module loads *)

Section Silence.

Variable cfg : Config.
Variable env : Env.

Lemma send_speaks s c d f b e (st : State) :
  sent (snd (sendProgressUpdate cfg env s c d f b e st)) <> [].
Proof.
  unfold sendProgressUpdate. simpl. destruct (sent st); discriminate.
Qed.

Ltac spoken :=
  first [ exact (keeps_refl _)
        | exact (keeps_trans _)
        | intros; intros ? _; apply send_speaks
        | intros ? ? Hst; rewrite execAsync_state; exact Hst
        | intros ? ? Hst; exact Hst ].

Lemma runHook_spoken h : stable (keeps (fun st => sent st <> [])) (runHook cfg env h).
Proof. apply runHook_stable; spoken. Qed.

Lemma main_speaks (st : State) : sent (snd (main cfg env st)) <> [].
Proof.
  assert (Hrest : stable (keeps (fun st => sent st <> [])) (taskLoop cfg env ;; requireAllCompleted cfg ;;
                            buildStage cfg env)).
  { repeat stable_step (keeps_refl (fun st => sent st <> []))
                       (keeps_trans (fun st => sent st <> []))
      ltac:(first [ apply taskLoop_stable | apply requireAllCompleted_stable
                  | apply buildStage_stable ];
            first [ apply runHook_spoken | spoken ]). }
  change (main cfg env st)
    with ((taskLoop cfg env ;; requireAllCompleted cfg ;; buildStage cfg env)
            (snd (sendProgressUpdate cfg env "running" "Starting task execution..."
                    [] [] None None st))).
  apply Hrest. apply send_speaks.
Qed.

End Silence.

(** The script stops with an error before anything has happened (no
    request sent, no agent queried, no command run, no hook called)
    exactly when one of the four required settings is empty; with all four
    present it goes on to [main], which sends at least its first report. *)
Theorem missing_setting_stops_the_script_at_once (cfg : Config) (env : Env) :
  environmentIncomplete cfg = true
  <-> exists e, script cfg env = (Throw e, initialState).
Proof.
  unfold environmentIncomplete, script, checkEnvironment. split.
  - intros H.
    destruct (Js.isEmpty (apiKey cfg)); [eexists; reflexivity |].
    destruct (Js.isEmpty (webhookUrl cfg)); [eexists; reflexivity |].
    destruct (Js.isEmpty (webhookSecret cfg)); [eexists; reflexivity |].
    destruct (Js.isEmpty (projectId cfg)); [eexists; reflexivity | discriminate H].
  - intros [e He].
    destruct (Js.isEmpty (apiKey cfg)); [reflexivity |].
    destruct (Js.isEmpty (webhookUrl cfg)); [reflexivity |].
    destruct (Js.isEmpty (webhookSecret cfg)); [reflexivity |].
    destruct (Js.isEmpty (projectId cfg)); [reflexivity |].
    exfalso. apply (main_speaks cfg env initialState).
    unfold run in He. rewrite He. reflexivity.
Qed.

(** Without the webhook secret the error names that setting. *)
Example script_without_secret :
  fst (script Sample.incomplete Sample.calm)
  = Throw (Err.new "WEBHOOK_SECRET environment variable is required").
Proof. reflexivity. Qed.
